(** * igc4vid: flight-track annotation pipeline

    A shallow embedding of [src/index.ts] (elevation lookup in batches of
    100 fixes, progressive XC scoring in chunks of 60 fixes, CSV output)
    and of the lookup and [processData] of the earlier version of the
    program, which has no scoring, together with the properties of the
    pipeline.

    JavaScript numbers are IEEE-754 binary64 values and are embedded as
    Rocq's primitive floats. Arrays are lists, [undefined] and [null] are
    [None]. The program is written in a monad of state, exceptions and
    fuel over a world that holds the track object, the requests sent, the
    solver calls made and the files written. The external collaborators
    (the elevation HTTP service, the [igc-xc-score] solver generator and
    the language's own number-to-string conversion) are parameters of the
    development. *)

From Stdlib Require Import ZArith Lia ZifyNat.
From Stdlib Require Import PrimFloat FloatOps FloatAxioms SpecFloat Uint63.
From Stdlib Require Import DecimalString DecimalPos.
From stdpp Require Import gmap strings list.

Local Open Scope string_scope.
Local Open Scope list_scope.
Local Open Scope nat_scope.

(** A lemma of a section depends on the section's variables that its
    statement names, and on no other. *)
Set Default Proof Using "Type".

(** [lia] is to decide goals with division and remainder by constants. *)
Ltac Zify.zify_post_hook ::= Z.to_euclidean_division_equations.

(** ** JavaScript built-ins used by the program *)

Module JS.

Abbreviation number := float.

(** [!x] for a number [x]: true for [+0], [-0] and [NaN]. *)
Definition not_number (x : number) : bool :=
  PrimFloat.eqb x 0%float || PrimFloat.is_nan x.

Definition Number_isNaN (x : number) : bool := PrimFloat.is_nan x.

(** [Boolean(s)] for [s : string | undefined]. *)
Definition Boolean_str (s : option string) : bool :=
  match s with
  | None => false
  | Some s => negb (String.eqb s EmptyString)
  end.

(** [Array.prototype.join]: [undefined] elements print as the empty
    string. *)
Definition join (sep : string) (l : list (option string)) : string :=
  String.concat sep (map (default EmptyString) l).

Definition startsWith (s p : string) : bool := String.prefix p s.

(** [Array.prototype.slice(b, e)] for [0 <= b <= e]. *)
Definition slice {A} (l : list A) (b e : nat) : list A :=
  take (e - b) (drop b l).

Definition digits (n : Z) : string :=
  NilEmpty.string_of_uint (N.to_uint (Z.to_N n)).

Fixpoint zeros (k : nat) : string :=
  match k with
  | O => EmptyString
  | S k => "0" +:+ zeros k
  end.

(** The integer [n] for which [n / 10^f - m * 2^e] is as close to zero
    as possible, the larger one when there are two. *)
Definition nearest_scaled (f : nat) (m : positive) (e : Z) : Z :=
  if (0 <=? e)%Z then (Z.pos m * 2 ^ e * 10 ^ Z.of_nat f)%Z
  else ((2 * Z.pos m * 10 ^ Z.of_nat f + 2 ^ (- e)) / 2 ^ (1 - e))%Z.

Definition ge_1e21 (m : positive) (e : Z) : bool :=
  if (0 <=? e)%Z then (10 ^ 21 <=? Z.pos m * 2 ^ e)%Z
  else (10 ^ 21 * 2 ^ (- e) <=? Z.pos m)%Z.

(** Steps 10 and 11 of [Number.prototype.toFixed]: the decimal digits of
    [n] with a point before the last [f] of them. *)
Definition fixed_notation (f : nat) (n : Z) : string :=
  let m := digits n in
  if (f =? 0)%nat then m
  else
    let k := String.length m in
    let m := if (k <=? f)%nat then zeros (f + 1 - k) +:+ m else m in
    let k := if (k <=? f)%nat then (f + 1)%nat else k in
    String.substring 0 (k - f) m +:+ "." +:+ String.substring (k - f) f m.

(** The numbers that [toFixed] prints in fixed notation: the finite ones
    of magnitude below [10^21]. *)
Definition in_fixed_range (x : number) : bool :=
  match Prim2SF x with
  | S754_zero _ => true
  | S754_finite _ m e => negb (ge_1e21 m e)
  | S754_nan | S754_infinity _ => false
  end.

Section ToString.

(** [Number::toString(x, 10)] of the language, left abstract. *)
Variable Number_toString : number -> string.

(** [Number.prototype.toFixed(f)]. *)
Definition toFixed (f : nat) (x : number) : string :=
  match Prim2SF x with
  | S754_nan | S754_infinity _ => Number_toString x
  | S754_zero _ => fixed_notation f 0
  | S754_finite s m e =>
      let sign := if s then "-" else EmptyString in
      if ge_1e21 m e then sign +:+ Number_toString (PrimFloat.abs x)
      else sign +:+ fixed_notation f (nearest_scaled f m e)
  end.

End ToString.

(** *** Built-ins of the line parser

    Strings hold the code units below 256. *)

(** The number value of an integer, rounded to the nearest double, ties
    to even. *)
Definition of_Z (z : Z) : number := SF2Prim (binary_normalize prec emax z 0 false).

(** [ToInt32]: [NaN], the zeros and the infinities give 0; other numbers
    are truncated and wrapped into the 32-bit signed range. [~~x] is
    [ToInt32] of [x]. *)
Definition ToInt32 (x : number) : Z :=
  match Prim2SF x with
  | S754_finite s m e =>
      let magnitude :=
        if (0 <=? e)%Z then (Z.pos m * 2 ^ e)%Z else (Z.pos m / 2 ^ (- e))%Z in
      let int := if s then (- magnitude)%Z else magnitude in
      let int32bit := (int mod 2 ^ 32)%Z in
      if (2 ^ 31 <=? int32bit)%Z then (int32bit - 2 ^ 32)%Z else int32bit
  | _ => 0%Z
  end.

(** [n % d]: the exact remainder of the truncating division, with the
    sign of [n]. *)
Definition remainder (n d : number) : number :=
  match Prim2SF n, Prim2SF d with
  | S754_nan, _ | _, S754_nan => nan
  | S754_infinity _, _ => nan
  | _, S754_zero _ => nan
  | _, S754_infinity _ => n
  | S754_zero _, _ => n
  | S754_finite sn mn en, S754_finite _ md ed =>
      let e := Z.min en ed in
      let r := ((Z.pos mn * 2 ^ (en - e)) mod (Z.pos md * 2 ^ (ed - e)))%Z in
      SF2Prim (binary_normalize prec emax (if sn then - r else r)%Z e sn)
  end.

Definition code (c : Ascii.ascii) : nat := Ascii.nat_of_ascii c.

(** White space and line terminators among the code units below 256. *)
Definition is_whitespace (c : Ascii.ascii) : bool :=
  (code c =? 9) || (code c =? 10) || (code c =? 11) || (code c =? 12)
  || (code c =? 13) || (code c =? 32) || (code c =? 160).

Fixpoint trim_start (s : string) : string :=
  match s with
  | String c s' => if is_whitespace c then trim_start s' else s
  | EmptyString => s
  end.

(** The value of a digit of the radix: [0-9], [a-z] and [A-Z]. *)
Definition digit_value (radix : Z) (c : Ascii.ascii) : option Z :=
  let n := Z.of_nat (code c) in
  let v := if (48 <=? n)%Z && (n <=? 57)%Z then Some (n - 48)%Z
           else if (97 <=? n)%Z && (n <=? 122)%Z then Some (n - 87)%Z
           else if (65 <=? n)%Z && (n <=? 90)%Z then Some (n - 55)%Z
           else None in
  match v with
  | Some d => if (d <? radix)%Z then Some d else None
  | None => None
  end.

(** The value of the longest prefix of digits; [None] when it is empty. *)
Fixpoint parse_digits (radix : Z) (s : string) (acc : option Z) : option Z :=
  match s with
  | String c s' =>
      match digit_value radix c with
      | Some d => parse_digits radix s' (Some (default 0%Z acc * radix + d)%Z)
      | None => acc
      end
  | EmptyString => acc
  end.

(** [parseInt(string)] without a radix: leading white space, a sign, the
    prefix [0x] or [0X] for radix 16, and the longest prefix of digits,
    whose value is taken exactly before it is rounded. *)
Definition parseInt (string : string) : number :=
  let s := trim_start string in
  let '(sign, s) :=
    match s with
    | String c s' =>
        if code c =? 45 then (true, s')
        else if code c =? 43 then (false, s')
        else (false, s)
    | EmptyString => (false, s)
    end in
  let '(R, s) :=
    match s with
    | String c (String x s') =>
        if (code c =? 48) && ((code x =? 120) || (code x =? 88)) then (16%Z, s')
        else (10%Z, s)
    | _ => (10%Z, s)
    end in
  match parse_digits R s None with
  | None => nan
  | Some mathInt =>
      if (mathInt =? 0)%Z then (if sign then (-0)%float else 0%float)
      else if sign then PrimFloat.opp (of_Z mathInt) else of_Z mathInt
  end.

(** [s.substring(b, e)] for [b <= e]: both ends are cut to the length. *)
Definition substring (s : string) (b e : nat) : string :=
  String.substring b (e - b) s.

End JS.

(** ** Data model *)

(** The types of the [igc-parser] library, with the fields that the
    program reads. *)

Module Fix.
(** A fix of [IGCParser.IGCFile.fixes]; [gpsAltitude] is [number | null]. *)
Record t := mk {
  time : string;
  timestamp : JS.number;
  latitude : JS.number;
  longitude : JS.number;
  gpsAltitude : option JS.number
}.
End Fix.

Module IGCFile.
Record t := mk {
  date : string;
  fixes : list Fix.t
}.
Definition with_fixes (igc : t) (fx : list Fix.t) : t :=
  {| date := date igc; fixes := fx |}.
End IGCFile.

Module ElevationDataRowLocation.
Record t := mk { lat : JS.number; lng : JS.number }.
End ElevationDataRowLocation.

Module ElevationDataRow.
Record t := mk {
  dataset : string;
  elevation : JS.number;
  location : ElevationDataRowLocation.t
}.
End ElevationDataRow.

Module ElevationData.
Record t := mk {
  results : list ElevationDataRow.t;
  status : string
}.
End ElevationData.

Module TargetData.
(** [groundElev] is read from an array by index and is [undefined] out of
    range; [gpsAlt] is the fix's [gpsAltitude] under a cast. *)
Record t := mk {
  time : string;
  gpsAlt : option JS.number;
  groundElev : option JS.number;
  xc : string;
  avgSpeed : JS.number
}.
End TargetData.

Module Response.
(** The response of [fetch]: [ok] is true for the statuses 200 to 299, and
    [json] is the body read as [ElevationData]. *)
Record t := mk {
  status : nat;
  json : ElevationData.t
}.
Definition ok (r : t) : bool := (200 <=? status r)%nat && (status r <? 300)%nat.
End Response.

Module ScoreInfo.
(** Modelled from the spec: the score payload of a candidate of the
    [igc-xc-score] library, whose declaration is not part of the sources:
    a distance in km and an optional penalty. *)
Record t := mk {
  distance : JS.number;
  penalty : option JS.number
}.
End ScoreInfo.

Module Solution.
(** Modelled from the spec: a candidate of the [igc-xc-score] solver,
    whose declaration is not part of the sources. It carries an optional
    [optimal] flag, the route-type code ([opt.scoring.code]) and the score
    payload, which the program reads through a non-null assertion. *)
Record t := mk {
  optimal : option bool;
  scoring_code : string;
  scoreInfo : ScoreInfo.t
}.
End Solution.

(** ** Effects

    The program runs against a world made of the track object (whose
    [fixes] field [processData] reassigns), the log of HTTP requests sent
    to the elevation service, the log of tracks handed to the solver, and
    the files written. *)

Record World := mkWorld {
  igc : IGCFile.t;
  requests : list string;
  solves : list IGCFile.t;
  files : gmap string string
}.

Inductive Error :=
| ServerReplies (status : nat)
| TypeError.

(** A computation returns, throws, or is still running when the fuel
    given to its loops is used up. *)
Inductive outcome (A : Type) :=
| Return (a : A) (w : World)
| Throw (e : Error) (w : World)
| Hang.
Arguments Return {A} a w.
Arguments Throw {A} e w.
Arguments Hang {A}.

Definition M (A : Type) : Type := World -> outcome A.

Definition ret {A} (a : A) : M A := fun w => Return a w.

Definition bind {A B} (m : M A) (k : A -> M B) : M B :=
  fun w =>
    match m w with
    | Return a w' => k a w'
    | Throw e w' => Throw e w'
    | Hang => Hang
    end.

Definition throw {A} (e : Error) : M A := fun w => Throw e w.
Definition hang {A} : M A := fun _ => Hang.

Notation "'let*' x ':=' m 'in' k" := (bind m (fun x => k))
  (at level 10, x pattern, m at level 100, k at level 200).
Notation "m ';;' k" := (bind m (fun _ => k))
  (at level 100, k at level 200, right associativity).

(** Reading and assigning [igc.fixes]. *)
Definition get_fixes : M (list Fix.t) :=
  fun w => Return (IGCFile.fixes (igc w)) w.

Definition set_fixes (fx : list Fix.t) : M unit :=
  fun w => Return tt (mkWorld (IGCFile.with_fixes (igc w) fx)
                              (requests w) (solves w) (files w)).

Definition get_igc : M IGCFile.t := fun w => Return (igc w) w.

Section Program.

(** [Number::toString] of the language. *)
Variable Number_toString : JS.number -> string.

(** The elevation service: the response to a request, given the number
    of requests answered before it and the request's URL. *)
Variable service : nat -> string -> Response.t.

(** The solver generator: [solver track n] is the value of the [n]-th
    [next()] of the generator made for [track]. *)
Variable solver : IGCFile.t -> nat -> Solution.t.

Definition fetch (url : string) : M Response.t :=
  fun w =>
    Return (service (length (requests w)) url)
           (mkWorld (igc w) (requests w ++ [url]) (solves w) (files w)).

Definition xcs_solver : M (nat -> Solution.t) :=
  fun w =>
    Return (solver (igc w))
           (mkWorld (igc w) (requests w) (solves w ++ [igc w]) (files w)).

(** *** getGroundElevations *)

Definition ELEVATION_CHUNK_SIZE : nat := 100.

Definition location (t : Fix.t) : string :=
  JS.toFixed Number_toString 5 (Fix.latitude t) +:+ ", "
    +:+ JS.toFixed Number_toString 5 (Fix.longitude t).

Definition locations (chunk : list Fix.t) : string :=
  String.concat "|" (map location chunk).

Definition request_url (server : string) (chunk : list Fix.t) : string :=
  server +:+ "?locations=" +:+ locations chunk.

(** The [for] loop of [getGroundElevations]; the progress line written
    to the console is left out. *)
Fixpoint getGroundElevations_loop (server : string) (dataLength fuel i : nat)
    (result : list JS.number) : M (list JS.number) :=
  if (i <? dataLength)%nat then
    match fuel with
    | O => hang
    | S fuel =>
        let* fx := get_fixes in
        let chunk := JS.slice fx i (i + ELEVATION_CHUNK_SIZE) in
        let* response := fetch (request_url server chunk) in
        if Response.ok response then
          let data := Response.json response in
          if JS.startsWith (ElevationData.status data) "OK" then
            getGroundElevations_loop server dataLength fuel
              (i + ELEVATION_CHUNK_SIZE)
              (result ++ map ElevationDataRow.elevation (ElevationData.results data))
          else
            getGroundElevations_loop server dataLength fuel
              (i + ELEVATION_CHUNK_SIZE) result
        else throw (ServerReplies (Response.status response))
    end
  else ret result.

(** The loop advances by 100 per round, so [dataLength] rounds are
    enough for it to finish. *)
Definition getGroundElevations (server : string) : M (list JS.number) :=
  let* fx := get_fixes in
  let dataLength := length fx in
  getGroundElevations_loop server dataLength dataLength 0 [].

(** *** getRouteType *)

Definition getRouteType (scoringCode : string) : option string :=
  if String.eqb scoringCode "fai" then Some "FAI"
  else if String.eqb scoringCode "tri" then Some "flat"
  else None.

(** *** processData *)

Definition SCORING_CHUNK_SIZE : nat := 60.

(** [scoreInfo.distance - (!scoreInfo.penalty || Number.isNaN(scoreInfo.penalty) ? 0 : scoreInfo.penalty)] *)
Definition net_distance (scoreInfo : ScoreInfo.t) : JS.number :=
  let penalty :=
    match ScoreInfo.penalty scoreInfo with
    | None => 0%float
    | Some p => if JS.not_number p || JS.Number_isNaN p then 0%float else p
    end in
  PrimFloat.sub (ScoreInfo.distance scoreInfo) penalty.

Definition xc_label (next : Solution.t) : string :=
  JS.join " "
    (filter (fun s => Is_true (JS.Boolean_str s))
       [ getRouteType (Solution.scoring_code next);
         Some (JS.toFixed Number_toString 0 (net_distance (Solution.scoreInfo next)));
         Some "km" ]).

Definition avg_speed (next : Solution.t) (lastTimestamp firstTimestamp : JS.number)
    : JS.number :=
  PrimFloat.div (ScoreInfo.distance (Solution.scoreInfo next))
    (PrimFloat.div (PrimFloat.sub lastTimestamp firstTimestamp) 3600000%float).

Definition is_optimal (next : Solution.t) : bool :=
  default false (Solution.optimal next).

(** The [do ... while (!solved)] loop: candidates are pulled until one
    is flagged optimal, and [xc] and [avgSpeed] are those of that
    candidate. [n] counts the candidates pulled so far. *)
Fixpoint drive (gen : nat -> Solution.t) (chunk : list Fix.t)
    (firstTimestamp : JS.number) (fuel n : nat) : M (string * JS.number) :=
  match fuel with
  | O => hang
  | S fuel =>
      let next := gen n in
      let solved := is_optimal next in
      if solved then
        match last chunk with
        | None => throw TypeError
        | Some lastFix =>
            ret (xc_label next,
                 avg_speed next (Fix.timestamp lastFix) firstTimestamp)
        end
      else drive gen chunk firstTimestamp fuel (S n)
  end.

Definition target_rows (elevations : list JS.number) (i : nat) (xc : string)
    (avgSpeed : JS.number) (chunk : list Fix.t) : list TargetData.t :=
  imap (fun j fix_ =>
          {| TargetData.time := Fix.time fix_;
             TargetData.gpsAlt := Fix.gpsAltitude fix_;
             TargetData.groundElev := elevations !! (i + j);
             TargetData.xc := xc;
             TargetData.avgSpeed := avgSpeed |}) chunk.

(** The [for] loop of [processData]; [sfuel] bounds the candidates
    pulled from each solver. The progress line written to the console is
    left out. *)
Fixpoint processData_loop (sfuel : nat) (elevations : list JS.number)
    (fixes : list Fix.t) (firstTimestamp : JS.number) (fuel i : nat)
    (processedData : list TargetData.t) : M (list TargetData.t) :=
  if (i <? length fixes)%nat then
    match fuel with
    | O => hang
    | S fuel =>
        let chunk := JS.slice fixes i (i + SCORING_CHUNK_SIZE) in
        let* acc := get_fixes in
        set_fixes (acc ++ chunk);;
        let* gen := xcs_solver in
        let* (xc, avgSpeed) := drive gen chunk firstTimestamp sfuel 0 in
        processData_loop sfuel elevations fixes firstTimestamp fuel
          (i + SCORING_CHUNK_SIZE)
          (processedData ++ target_rows elevations i xc avgSpeed chunk)
    end
  else ret processedData.

(** The loop advances by 60 per round, so [length fixes] rounds are
    enough for it to finish. The lines written to the console are left
    out. *)
Definition processData (sfuel : nat) (elevationServer : string)
    : M (list TargetData.t) :=
  let* elevations := getGroundElevations elevationServer in
  let processedData := [] in
  let* fixes := get_fixes in
  match fixes with
  | [] => ret []
  | fix0 :: _ =>
      let firstTimestamp := Fix.timestamp fix0 in
      set_fixes [];;
      processData_loop sfuel elevations fixes firstTimestamp
        (length fixes) 0 processedData
  end.

(** *** writeProcessedFile *)

Definition newline : string := String (Ascii.ascii_of_nat 10) EmptyString.

Definition csv_header : string :=
  "date,altitude(m),ground alt(m),agl(m),xc(km),avg speed(km/h)" +:+ newline.

(** [null] prints as ["null"] and counts as [0] in a subtraction. *)
Definition gpsAlt_string (gpsAlt : option JS.number) : string :=
  match gpsAlt with
  | None => "null"
  | Some a => Number_toString a
  end.

Definition gpsAlt_number (gpsAlt : option JS.number) : JS.number :=
  default 0%float gpsAlt.

Definition fs_open_w (filePath : string) : M unit :=
  fun w => Return tt (mkWorld (igc w) (requests w) (solves w)
                        (<[filePath := EmptyString]> (files w))).

Definition file_write (filePath : string) (text : string) : M unit :=
  fun w => Return tt (mkWorld (igc w) (requests w) (solves w)
                        (<[filePath := default EmptyString (files w !! filePath) +:+ text]>
                           (files w))).

(** One row of the file; [groundElev.toFixed] throws on [undefined]. *)
Definition write_row (filePath flightDate : string) (row : TargetData.t) : M unit :=
  match TargetData.groundElev row with
  | None => throw TypeError
  | Some groundElev =>
      let gpsAlt := TargetData.gpsAlt row in
      file_write filePath
        (flightDate +:+ "T" +:+ TargetData.time row +:+ "Z,"
           +:+ gpsAlt_string gpsAlt +:+ ","
           +:+ JS.toFixed Number_toString 0 groundElev +:+ ","
           +:+ JS.toFixed Number_toString 0
                 (PrimFloat.sub (gpsAlt_number gpsAlt) groundElev) +:+ ","
           +:+ TargetData.xc row +:+ ","
           +:+ JS.toFixed Number_toString 1 (TargetData.avgSpeed row) +:+ newline)
  end.

Fixpoint write_rows (filePath flightDate : string) (rows : list TargetData.t)
    : M unit :=
  match rows with
  | [] => ret tt
  | row :: rows =>
      write_row filePath flightDate row;;
      write_rows filePath flightDate rows
  end.

Definition writeProcessedFile (filePath flightDate : string)
    (processedData : list TargetData.t) : M unit :=
  fs_open_w filePath;;
  file_write filePath csv_header;;
  write_rows filePath flightDate processedData.

(** *** run, from the point where the track has been read

    The track read by [readIgcFile] is the [igc] of the initial world,
    and [targetFile] is the input path with its extension replaced. *)

Definition ELEVATION_SERVER_URL : string := "http://localhost:19993/v1/eudem25m".

Definition run (sfuel : nat) (targetFile : string) : M unit :=
  let* processedData := processData sfuel ELEVATION_SERVER_URL in
  let* track := get_igc in
  writeProcessedFile targetFile (IGCFile.date track) processedData.

End Program.

(** ** The version of the program without scoring

    The earlier version of the program reads the track with a parser of
    its own, as a list of track points, and annotates each point with the
    ground elevation only. Its [getGroundElevations] and [processData]
    take the list of points. *)

Module ElevationOnly.

Module TrackPoint.
Record t := mk {
  time : string;
  latDeg : JS.number;
  lonDeg : JS.number;
  gpsAlt : JS.number
}.
End TrackPoint.

Module TargetData.
Record t := mk {
  time : string;
  gpsAlt : JS.number;
  groundElev : option JS.number
}.
End TargetData.

Section Program.

Variable Number_toString : JS.number -> string.
Variable service : nat -> string -> Response.t.

Definition location (t : TrackPoint.t) : string :=
  JS.toFixed Number_toString 5 (TrackPoint.latDeg t) +:+ ", "
    +:+ JS.toFixed Number_toString 5 (TrackPoint.lonDeg t).

Definition locations (chunk : list TrackPoint.t) : string :=
  String.concat "|" (map location chunk).

Definition request_url (server : string) (chunk : list TrackPoint.t) : string :=
  server +:+ "?locations=" +:+ locations chunk.

Fixpoint getGroundElevations_loop (server : string) (trackPoints : list TrackPoint.t)
    (dataLength fuel i : nat) (result : list JS.number) : M (list JS.number) :=
  if (i <? dataLength)%nat then
    match fuel with
    | O => hang
    | S fuel =>
        let chunk := JS.slice trackPoints i (i + ELEVATION_CHUNK_SIZE) in
        let* response := fetch service (request_url server chunk) in
        if Response.ok response then
          let data := Response.json response in
          if JS.startsWith (ElevationData.status data) "OK" then
            getGroundElevations_loop server trackPoints dataLength fuel
              (i + ELEVATION_CHUNK_SIZE)
              (result ++ map ElevationDataRow.elevation (ElevationData.results data))
          else
            getGroundElevations_loop server trackPoints dataLength fuel
              (i + ELEVATION_CHUNK_SIZE) result
        else throw (ServerReplies (Response.status response))
    end
  else ret result.

Definition getGroundElevations (server : string) (trackPoints : list TrackPoint.t)
    : M (list JS.number) :=
  let dataLength := length trackPoints in
  getGroundElevations_loop server trackPoints dataLength dataLength 0 [].

Definition processData (elevationServer : string) (trackPoints : list TrackPoint.t)
    : M (list TargetData.t) :=
  let* elevations := getGroundElevations elevationServer trackPoints in
  ret (imap (fun i tp =>
               {| TargetData.time := TrackPoint.time tp;
                  TargetData.gpsAlt := TrackPoint.gpsAlt tp;
                  TargetData.groundElev := elevations !! i |}) trackPoints).

End Program.

(** A track point as a fix of the later version, the track object that
    holds a list of points, and an outcome with the track object put
    back. *)
Definition to_fix (t : TrackPoint.t) : Fix.t :=
  Fix.mk (TrackPoint.time t) 0%float (TrackPoint.latDeg t) (TrackPoint.lonDeg t)
         (Some (TrackPoint.gpsAlt t)).

Definition holding (w : World) (trackPoints : list TrackPoint.t) : World :=
  mkWorld (IGCFile.mk (IGCFile.date (igc w)) (map to_fix trackPoints))
          (requests w) (solves w) (files w).

Definition with_igc {A} (track : IGCFile.t) (o : outcome A) : outcome A :=
  match o with
  | Return a w => Return a (mkWorld track (requests w) (solves w) (files w))
  | Throw e w => Throw e (mkWorld track (requests w) (solves w) (files w))
  | Hang => Hang
  end.

(** *** readIgcFile, writeProcessedFile and run of the earlier version *)

Module IgcFile.
Record t := mk {
  flightDate : string;
  trackPoints : list TrackPoint.t
}.
End IgcFile.

(** The date of a line that starts with [HFDTE]. *)
Definition header_date (line : string) : string :=
  let dateString := JS.substring line 10 21 in
  let day := JS.substring dateString 0 2 in
  let month := JS.substring dateString 2 4 in
  let year := "20" +:+ JS.substring dateString 4 6 in
  year +:+ "-" +:+ month +:+ "-" +:+ day.

(** [~~(v / 100000) + (v % 100000) / 60000.0] *)
Definition degrees (v : JS.number) : JS.number :=
  PrimFloat.add (JS.of_Z (JS.ToInt32 (PrimFloat.div v 100000%float)))
                (PrimFloat.div (JS.remainder v 100000%float) 60000%float).

Definition is_char (c : option Ascii.ascii) (n : nat) : bool :=
  match c with
  | Some c => JS.code c =? n
  | None => false
  end.

(** The track point of a line that starts with [B]; 83 and 87 are the
    codes of [S] and [W]. *)
Definition fix_point (line : string) : TrackPoint.t :=
  let timeStr := JS.substring line 1 7 in
  let lat := JS.parseInt (JS.substring line 7 14) in
  let lon := JS.parseInt (JS.substring line 15 23) in
  let gpsAlt := JS.parseInt (JS.substring line 25 30) in
  let latDeg := degrees lat in
  let lonDeg := degrees lon in
  let latDeg := if is_char (String.get 14 line) 83 then PrimFloat.opp latDeg else latDeg in
  let lonDeg := if is_char (String.get 23 line) 87 then PrimFloat.opp lonDeg else lonDeg in
  let time := JS.substring timeStr 0 2 +:+ ":" +:+ JS.substring timeStr 2 4
                +:+ ":" +:+ JS.substring timeStr 4 6 in
  {| TrackPoint.time := time; TrackPoint.latDeg := latDeg;
     TrackPoint.lonDeg := lonDeg; TrackPoint.gpsAlt := gpsAlt |}.

(** The body of the loop over the lines: the date and the points read
    so far, and the next line. *)
Definition read_line (state : string * list TrackPoint.t) (line : string)
    : string * list TrackPoint.t :=
  let '(flightDate, trackPoints) := state in
  if JS.startsWith line "HFDTE" then (header_date line, trackPoints)
  else if JS.startsWith line "B" then (flightDate, trackPoints ++ [fix_point line])
  else (flightDate, trackPoints).

(** [readIgcFile] on the lines that the file yields. *)
Definition readIgcFile (lines : list string) : IgcFile.t :=
  let '(flightDate, trackPoints) := fold_left read_line lines (EmptyString, []) in
  {| IgcFile.flightDate := flightDate; IgcFile.trackPoints := trackPoints |}.

Section Output.

Variable Number_toString : JS.number -> string.
Variable service : nat -> string -> Response.t.

Definition csv_header : string :=
  "date,altitude(m),ground alt (m),agl (m)" +:+ newline.

(** One row of the file; [groundElev.toFixed] throws on [undefined]. *)
Definition write_row (filePath flightDate : string) (row : TargetData.t) : M unit :=
  match TargetData.groundElev row with
  | None => throw TypeError
  | Some groundElev =>
      let gpsAlt := TargetData.gpsAlt row in
      file_write filePath
        (flightDate +:+ "T" +:+ TargetData.time row +:+ "Z,"
           +:+ Number_toString gpsAlt +:+ ","
           +:+ JS.toFixed Number_toString 0 groundElev +:+ ","
           +:+ JS.toFixed Number_toString 0 (PrimFloat.sub gpsAlt groundElev)
           +:+ newline)
  end.

Fixpoint write_rows (filePath flightDate : string) (rows : list TargetData.t)
    : M unit :=
  match rows with
  | [] => ret tt
  | row :: rows =>
      write_row filePath flightDate row;;
      write_rows filePath flightDate rows
  end.

Definition writeProcessedFile (filePath flightDate : string)
    (processedData : list TargetData.t) : M unit :=
  fs_open_w filePath;;
  file_write filePath csv_header;;
  write_rows filePath flightDate processedData.

(** [run], from the point where the file is read: [lines] are the lines
    of the input file and [targetFile] is the input path with its
    extension replaced. *)
Definition run (lines : list string) (targetFile : string) : M unit :=
  let file := readIgcFile lines in
  let flightDate := IgcFile.flightDate file in
  let trackPoints := IgcFile.trackPoints file in
  let* processedData :=
    processData Number_toString service ELEVATION_SERVER_URL trackPoints in
  writeProcessedFile targetFile flightDate processedData.

End Output.

End ElevationOnly.

(** ** The version of the program that only solves

    Another version of the program hands the whole track to the solver
    once and writes the shape of the optimal solution to a file. *)

Module SolutionOnly.

Section Program.

Variable solver : IGCFile.t -> nat -> Solution.t.

(** [JSON.stringify(result.geojson())], of the solver's library and of
    the language. *)
Variable geojson_text : Solution.t -> string.

(** The [do ... while (!solved)] loop, which keeps the last candidate
    pulled. *)
Fixpoint drive (gen : nat -> Solution.t) (fuel n : nat) : M Solution.t :=
  match fuel with
  | O => hang
  | S fuel =>
      let next := gen n in
      let result := next in
      let solved := is_optimal next in
      if solved then ret result else drive gen fuel (S n)
  end.

(** [fsp.writeFile]: the file holds the text and nothing else. *)
Definition fs_writeFile (filePath text : string) : M unit :=
  fun w => Return tt (mkWorld (igc w) (requests w) (solves w)
                        (<[filePath := text]> (files w))).

(** The line written to the console is left out. *)
Definition processData (sfuel : nat) (targetFile : string) : M unit :=
  let* gen := xcs_solver solver in
  let* result := drive gen sfuel 0 in
  fs_writeFile targetFile (geojson_text result).

End Program.

End SolutionOnly.

(** ** Vocabulary of the properties *)

Definition ceil_div (n d : nat) : nat := (n + d - 1) / d.

(** Batch [k] of a track: the fixes from [100 * k] up to [100 * k + 100]. *)
Definition batch (fx : list Fix.t) (k : nat) : list Fix.t :=
  JS.slice fx (100 * k) (100 * k + 100).

Definition batches (fx : list Fix.t) : nat := ceil_div (length fx) 100.

(** The elevations listed in a response, and what the lookup takes from
    it. *)
Definition answer (r : Response.t) : list JS.number :=
  map ElevationDataRow.elevation (ElevationData.results (Response.json r)).

Definition status_OK (r : Response.t) : bool :=
  JS.startsWith (ElevationData.status (Response.json r)) "OK".

Definition contribution (r : Response.t) : list JS.number :=
  if status_OK r then answer r else [].

Definition reports_success (r : Response.t) : bool :=
  Response.ok r && status_OK r.

Definition sent (w : World) (urls : list string) : World :=
  mkWorld (igc w) (requests w ++ urls) (solves w) (files w).

(** The request for batch [k] of the track [fx], and the response to it
    when [r0] requests were sent before the lookup. *)
Definition batch_url (Number_toString : JS.number -> string) (server : string)
    (fx : list Fix.t) (k : nat) : string :=
  request_url Number_toString server (batch fx k).

Definition reply (Number_toString : JS.number -> string)
    (service : nat -> string -> Response.t) (server : string)
    (fx : list Fix.t) (r0 : nat) (k : nat) : Response.t :=
  service (r0 + k) (batch_url Number_toString server fx k).

(** The response to batch [k] of the lookup started in world [w]. *)
Definition reply_in (Number_toString : JS.number -> string)
    (service : nat -> string -> Response.t) (server : string) (w : World) (k : nat)
    : Response.t :=
  reply Number_toString service server (IGCFile.fixes (igc w)) (length (requests w)) k.

Definition request_urls (Number_toString : JS.number -> string) (server : string)
    (w : World) (n : nat) : list string :=
  map (batch_url Number_toString server (IGCFile.fixes (igc w))) (seq 0 n).

(** What the lookup started in [w] gathers when no batch is refused. *)
Definition gathered (Number_toString : JS.number -> string)
    (service : nat -> string -> Response.t) (server : string) (w : World)
    : list JS.number :=
  concat (map (fun k => contribution (reply_in Number_toString service server w k))
              (seq 0 (batches (IGCFile.fixes (igc w))))).

(** Every batch of the lookup started in [w] is answered with success:
    an HTTP status from 200 to 299 and a status field that starts with
    OK. *)
Definition all_success (Number_toString : JS.number -> string)
    (service : nat -> string -> Response.t) (server : string) (w : World) : Prop :=
  forall k, k < batches (IGCFile.fixes (igc w)) ->
    reports_success (reply_in Number_toString service server w k) = true.

(** No batch of the lookup started in [w] is answered with an HTTP
    status outside 200 to 299. *)
Definition none_refused (Number_toString : JS.number -> string)
    (service : nat -> string -> Response.t) (server : string) (w : World) : Prop :=
  forall k, k < batches (IGCFile.fixes (igc w)) ->
    Response.ok (reply_in Number_toString service server w k) = true.

(** The position at which block [k] starts in the concatenation of the
    blocks [f 0], [f 1], ... *)
Definition offset {A} (f : nat -> list A) (k : nat) : nat :=
  length (concat (map f (seq 0 k))).

Definition first_optimal (gen : nat -> Solution.t) (n : nat) : Prop :=
  is_optimal (gen n) = true /\ forall m, m < n -> is_optimal (gen m) = false.

(** Chunk [k] of a track: the fixes from [60 * k] up to [60 * k + 60]. *)
Definition chunk (track : IGCFile.t) (k : nat) : list Fix.t :=
  JS.slice (IGCFile.fixes track) (60 * k) (60 * k + 60).

Definition chunks (track : IGCFile.t) : nat :=
  ceil_div (length (IGCFile.fixes track)) 60.

(** The track whose fixes are the first [n] fixes of [track]. *)
Definition prefix_track (track : IGCFile.t) (n : nat) : IGCFile.t :=
  IGCFile.with_fixes track (take n (IGCFile.fixes track)).

(** The track handed to the solver in round [k]. *)
Definition solved_track (track : IGCFile.t) (k : nat) : IGCFile.t :=
  prefix_track track (60 * S k).

Definition scored (track : IGCFile.t) (w : World) (tracks : list IGCFile.t) : World :=
  mkWorld track (requests w) (solves w ++ tracks) (files w).

(** Row [i] of the output: the time and altitude of fix [i], the
    elevation at position [i], and the label and speed of the first
    optimal candidate for the prefix that ends with the chunk of fix
    [i]. *)
Definition scored_row (Number_toString : JS.number -> string)
    (solver : IGCFile.t -> nat -> Solution.t) (track : IGCFile.t)
    (firstTimestamp : JS.number) (elevations : list JS.number) (i : nat)
    (row : TargetData.t) : Prop :=
  exists fix_ lastFix n,
    IGCFile.fixes track !! i = Some fix_ /\
    last (chunk track (i / 60)) = Some lastFix /\
    first_optimal (solver (solved_track track (i / 60))) n /\
    row = {| TargetData.time := Fix.time fix_;
             TargetData.gpsAlt := Fix.gpsAltitude fix_;
             TargetData.groundElev := elevations !! i;
             TargetData.xc :=
               xc_label Number_toString (solver (solved_track track (i / 60)) n);
             TargetData.avgSpeed :=
               avg_speed (solver (solved_track track (i / 60)) n)
                         (Fix.timestamp lastFix) firstTimestamp |}.

(** The solver reaches an optimal candidate on every prefix of the track. *)
Definition converges (solver : IGCFile.t -> nat -> Solution.t) (track : IGCFile.t) : Prop :=
  forall n, exists m, is_optimal (solver (prefix_track track n) m) = true.

(** The average speed as the specification words it: the net scoring
    distance, distance minus penalty, over the hours from the track's
    first fix to the chunk's last fix. *)
Definition spec_average_speed (next : Solution.t)
    (lastTimestamp firstTimestamp : JS.number) : JS.number :=
  PrimFloat.div (net_distance (Solution.scoreInfo next))
    (PrimFloat.div (PrimFloat.sub lastTimestamp firstTimestamp) 3600000%float).

(** The pairs of a request as the specification words them: latitude
    and longitude separated by a comma and no other character. *)
Definition spec_location (Number_toString : JS.number -> string) (t : Fix.t) : string :=
  JS.toFixed Number_toString 5 (Fix.latitude t) +:+ ","
    +:+ JS.toFixed Number_toString 5 (Fix.longitude t).

Definition spec_locations (Number_toString : JS.number -> string)
    (chunk : list Fix.t) : string :=
  String.concat "|" (map (spec_location Number_toString) chunk).

(** The integer [n] is the one nearest to [|x| * 10^f], the larger one
    when there are two; [x] is [(-1)^s * m * 2^e], and for a negative
    [e] the inequalities are scaled by [2 * 2^(-e)]. *)
Definition nearest_integer (f : nat) (x : JS.number) (n : Z) : Prop :=
  match Prim2SF x with
  | S754_zero _ => n = 0%Z
  | S754_finite _ m e =>
      (0 <= n)%Z /\
      if (0 <=? e)%Z then n = (Z.pos m * 2 ^ e * 10 ^ Z.of_nat f)%Z
      else (2 * (Z.pos m * 10 ^ Z.of_nat f) - 2 ^ (- e)
              < 2 * 2 ^ (- e) * n
              <= 2 * (Z.pos m * 10 ^ Z.of_nat f) + 2 ^ (- e))%Z
  | S754_nan | S754_infinity _ => False
  end.

(** The sign before the digits: a minus for the negative numbers other
    than the negative zero. *)
Definition sign_text (x : JS.number) : string :=
  match Prim2SF x with
  | S754_finite true _ _ => "-"
  | _ => EmptyString
  end.

(** The text shows [x] rounded to [f] decimal digits: the sign, then the
    decimal digits of the integer nearest to [|x| * 10^f], with zeros
    before them up to [f + 1] digits, and a point before the last [f]
    of them. *)
Definition rounded_to (f : nat) (x : JS.number) (text : string) : Prop :=
  exists (n : Z) (a b : string),
    nearest_integer f x n /\
    text = sign_text x +:+ a +:+ "." +:+ b /\
    String.length b = f /\
    a +:+ b = JS.zeros (f + 1 - String.length (JS.digits n)) +:+ JS.digits n.

(** ** Scenarios

    Concrete tracks, services and solvers, on which the program is run. *)

(** [Number::toString] on the values the scenarios may print: the
    integers of magnitude below [2^53], whose digits it prints as they
    are, the zeros, [NaN] and the infinities. The other numbers are
    outside this printer's domain and give the empty string. *)
Definition toString_integers (x : JS.number) : string :=
  match Prim2SF x with
  | S754_nan => "NaN"
  | S754_infinity s => if s then "-Infinity" else "Infinity"
  | S754_zero _ => "0"
  | S754_finite s m e =>
      if (0 <=? e)%Z && (Z.pos m * 2 ^ e <? 2 ^ 53)%Z then
        (if s then "-" else EmptyString) +:+ JS.digits (Z.pos m * 2 ^ e)
      else if (e <? 0)%Z && (Z.pos m mod 2 ^ (- e) =? 0)%Z then
        (if s then "-" else EmptyString) +:+ JS.digits (Z.pos m / 2 ^ (- e))
      else EmptyString
  end.

Definition float_of_nat (n : nat) : JS.number :=
  PrimFloat.of_uint63 (Uint63.of_Z (Z.of_nat n)).

(** Latitude 48 degrees 36.200 minutes north, one hour of flight. *)
Definition fix_a : Fix.t :=
  Fix.mk "10:00:00" 0%float
         (PrimFloat.add 48 (PrimFloat.div 36200 60000)) 11.5%float (Some 1000%float).

Definition fix_b : Fix.t :=
  Fix.mk "11:00:00" 3600000%float 48.75%float (-11.25)%float (Some 1200%float).

Definition world_of (fixes : list Fix.t) : World :=
  mkWorld (IGCFile.mk "2024-06-01" fixes) [] [] ∅.

Definition one_fix : World := world_of [fix_a].
Definition two_fixes : World := world_of [fix_a; fix_b].

(** 150 fixes, one per second. *)
Definition fix_at (i : nat) : Fix.t :=
  Fix.mk "12:00:00" (float_of_nat (1000 * i)) 48.5%float 11.5%float (Some 1000%float).

Definition track_150 : World := world_of (map fix_at (seq 0 150)).

(** The number of pairs in a request: its vertical bars, plus one. *)
Fixpoint bars (s : string) : nat :=
  match s with
  | EmptyString => 0
  | String c s => (if Ascii.eqb c (Ascii.ascii_of_nat 124) then 1 else 0) + bars s
  end.

Definition elevation_row (e : JS.number) : ElevationDataRow.t :=
  ElevationDataRow.mk "eudem25m" e (ElevationDataRowLocation.mk 0%float 0%float).

(** A service that answers request [k] with one elevation per pair: the
    elevation [1000 * k + j] for pair [j]. *)
Definition service_ok (k : nat) (url : string) : Response.t :=
  Response.mk 200
    (ElevationData.mk
       (map (fun j => elevation_row (float_of_nat (1000 * k + j))) (seq 0 (S (bars url))))
       "OK").

(** A service that reports success and lists no elevation. *)
Definition service_no_results (k : nat) (url : string) : Response.t :=
  Response.mk 200 (ElevationData.mk [] "OK").

(** A service that answers the first request with a status field that
    reports an error. *)
Definition service_bad_status_first (k : nat) (url : string) : Response.t :=
  if k =? 0 then Response.mk 200 (ElevationData.mk [] "INVALID_REQUEST")
  else service_ok k url.

(** A service that answers every request with HTTP 503. *)
Definition service_unavailable (k : nat) (url : string) : Response.t :=
  Response.mk 503 (ElevationData.mk [] EmptyString).

(** A service that answers the second request with HTTP 500. *)
Definition service_500_second (k : nat) (url : string) : Response.t :=
  if k =? 1 then Response.mk 500 (ElevationData.mk [] EmptyString)
  else service_ok k url.

(** A solver whose third candidate is optimal: an FAI triangle of 10 km
    with a penalty of 2 km. *)
Definition solver_third (track : IGCFile.t) (n : nat) : Solution.t :=
  Solution.mk (if n <? 2 then None else Some true) "fai"
              (ScoreInfo.mk 10%float (Some 2%float)).

(** A solver that never flags a candidate as optimal. *)
Definition solver_never (track : IGCFile.t) (n : nat) : Solution.t :=
  Solution.mk None "tri" (ScoreInfo.mk 10%float None).

(** The lines of a short file: a header with the date of 28 July 2009,
    two fixes, and lines of other kinds. *)
Definition sample_lines : list string :=
  [ "AXXXABC";
    "HFDTEDATE:280709,01";
    "B1101355206343N00006198WA0058700558";
    "LXXX a comment";
    "B1101455206259S00006295EA0059000556" ].

(** A stand-in for the text of a solution: its scoring code. *)
Definition scoring_code_text (s : Solution.t) : string := Solution.scoring_code s.

(** ** Vocabulary of the further properties *)

(** The text of the row of the file for a row of the output whose
    ground elevation is [groundElev]. *)
Definition csv_row (Number_toString : JS.number -> string) (flightDate : string)
    (row : TargetData.t) (groundElev : JS.number) : string :=
  let gpsAlt := TargetData.gpsAlt row in
  flightDate +:+ "T" +:+ TargetData.time row +:+ "Z,"
    +:+ gpsAlt_string Number_toString gpsAlt +:+ ","
    +:+ JS.toFixed Number_toString 0 groundElev +:+ ","
    +:+ JS.toFixed Number_toString 0
          (PrimFloat.sub (gpsAlt_number gpsAlt) groundElev) +:+ ","
    +:+ TargetData.xc row +:+ ","
    +:+ JS.toFixed Number_toString 1 (TargetData.avgSpeed row) +:+ newline.

Definition row_text (Number_toString : JS.number -> string) (flightDate : string)
    (row : TargetData.t) : string :=
  match TargetData.groundElev row with
  | Some groundElev => csv_row Number_toString flightDate row groundElev
  | None => EmptyString
  end.

(** The texts of the rows, one after the other. *)
Fixpoint csv_text (Number_toString : JS.number -> string) (flightDate : string)
    (rows : list TargetData.t) : string :=
  match rows with
  | [] => EmptyString
  | row :: rows =>
      row_text Number_toString flightDate row +:+ csv_text Number_toString flightDate rows
  end.

(** The same for the rows of the earlier version. *)
Definition point_row_text (Number_toString : JS.number -> string) (flightDate : string)
    (row : ElevationOnly.TargetData.t) : string :=
  match ElevationOnly.TargetData.groundElev row with
  | Some groundElev =>
      let gpsAlt := ElevationOnly.TargetData.gpsAlt row in
      flightDate +:+ "T" +:+ ElevationOnly.TargetData.time row +:+ "Z,"
        +:+ Number_toString gpsAlt +:+ ","
        +:+ JS.toFixed Number_toString 0 groundElev +:+ ","
        +:+ JS.toFixed Number_toString 0 (PrimFloat.sub gpsAlt groundElev)
        +:+ newline
  | None => EmptyString
  end.

Fixpoint point_csv_text (Number_toString : JS.number -> string) (flightDate : string)
    (rows : list ElevationOnly.TargetData.t) : string :=
  match rows with
  | [] => EmptyString
  | row :: rows =>
      point_row_text Number_toString flightDate row
        +:+ point_csv_text Number_toString flightDate rows
  end.

(** The world in which the file at [filePath] holds [text]. *)
Definition wrote (w : World) (filePath text : string) : World :=
  mkWorld (igc w) (requests w) (solves w) (<[filePath := text]> (files w)).

(** The lines of a file that start with [B], and those that start with
    [HFDTE]. *)
Definition fix_lines (lines : list string) : list string :=
  filter (fun line => Is_true (JS.startsWith line "B")) lines.

Definition header_lines (lines : list string) : list string :=
  filter (fun line => Is_true (JS.startsWith line "HFDTE")) lines.

(** ** Facts about the built-ins *)

(** [nearest_scaled f m e] is the integer nearest to [m * 2^e * 10^f],
    the larger one of two: twice its distance to that number is at most
    1, and less than 1 from above. The inequalities are scaled by
    [2^(-e)]. *)
Lemma nearest_scaled_nearest f m e :
  (e < 0)%Z ->
  (2 * (Z.pos m * 10 ^ Z.of_nat f) - 2 ^ (- e)
     < 2 * 2 ^ (- e) * JS.nearest_scaled f m e
     <= 2 * (Z.pos m * 10 ^ Z.of_nat f) + 2 ^ (- e))%Z.
Proof.
  intros He. unfold JS.nearest_scaled.
  destruct (Z.leb_spec 0 e) as [Hle|_]; [lia|].
  replace (1 - e)%Z with (Z.succ (- e)) by lia. rewrite Z.pow_succ_r by lia.
  assert (0 < 2 ^ (- e))%Z as Hpos by (apply Z.pow_pos_nonneg; lia).
  set (b := (2 ^ (- e))%Z) in *. set (x := (Z.pos m * 10 ^ Z.of_nat f)%Z).
  replace (2 * Z.pos m * 10 ^ Z.of_nat f)%Z with (2 * x)%Z by (unfold x; lia).
  pose proof (Z.div_mod (2 * x + b) (2 * b) ltac:(lia)) as Hdiv.
  pose proof (Z.mod_pos_bound (2 * x + b) (2 * b) ltac:(lia)) as Hmod.
  lia.
Qed.

Lemma nearest_scaled_integer f m e :
  (0 <= e)%Z -> JS.nearest_scaled f m e = (Z.pos m * 2 ^ e * 10 ^ Z.of_nat f)%Z.
Proof.
  intros He. unfold JS.nearest_scaled. by destruct (Z.leb_spec 0 e); [|lia].
Qed.

Lemma string_app_cons c s1 s2 : String c s1 +:+ s2 = String c (s1 +:+ s2).
Proof. done. Qed.

Lemma string_length_app s1 s2 :
  String.length (s1 +:+ s2) = String.length s1 + String.length s2.
Proof.
  induction s1 as [|c s1 IH]; [done|].
  rewrite string_app_cons. cbn [String.length]. by rewrite IH.
Qed.

Lemma string_app_assoc s1 s2 s3 : (s1 +:+ s2) +:+ s3 = s1 +:+ (s2 +:+ s3).
Proof.
  induction s1 as [|c s1 IH]; [done|]. rewrite !string_app_cons. by rewrite IH.
Qed.

Lemma length_zeros k : String.length (JS.zeros k) = k.
Proof.
  induction k as [|k IH]; [done|]. cbn [JS.zeros].
  rewrite string_length_app, IH. done.
Qed.

Lemma length_substring s : forall n m,
  n + m <= String.length s -> String.length (String.substring n m s) = m.
Proof.
  induction s as [|c s IH]; intros n m H; simpl in H.
  - assert (n = 0 /\ m = 0) as [-> ->] by lia. done.
  - destruct n as [|n]; simpl.
    + destruct m as [|m]; simpl; [done|]. rewrite IH; [done|lia].
    + apply IH. lia.
Qed.

(** With [f > 0] digits asked for, the fixed notation ends with a point
    and [f] characters. *)
Lemma fixed_notation_decimals f n :
  0 < f ->
  exists a b, JS.fixed_notation f n = a +:+ "." +:+ b /\ String.length b = f.
Proof.
  intros Hf. unfold JS.fixed_notation.
  destruct (Nat.eqb_spec f 0) as [->|_]; [lia|].
  set (m := JS.digits n).
  destruct (Nat.leb_spec (String.length m) f) as [Hle|Hgt].
  - eexists _, _. split; [done|]. apply length_substring.
    rewrite string_length_app, length_zeros. lia.
  - eexists _, _. split; [done|]. apply length_substring. lia.
Qed.

Lemma toFixed_decimals Number_toString f x :
  JS.in_fixed_range x = true ->
  0 < f ->
  exists a b, JS.toFixed Number_toString f x = a +:+ "." +:+ b /\ String.length b = f.
Proof.
  intros Hx Hf. unfold JS.in_fixed_range in Hx. unfold JS.toFixed.
  destruct (Prim2SF x) as [sgn|sgn| |sgn m e]; [|done|done|].
  - by apply fixed_notation_decimals.
  - apply negb_true_iff in Hx. rewrite Hx.
    destruct (fixed_notation_decimals f (JS.nearest_scaled f m e) Hf) as (a & b & -> & Hb).
    exists ((if sgn then "-" else EmptyString) +:+ a), b.
    by rewrite string_app_assoc.
Qed.

(** A pair of a request: both coordinates with 5 decimal digits, a comma
    and a space between them. *)
Lemma location_decimals Number_toString t :
  JS.in_fixed_range (Fix.latitude t) = true ->
  JS.in_fixed_range (Fix.longitude t) = true ->
  exists a1 b1 a2 b2,
    location Number_toString t
    = (a1 +:+ "." +:+ b1) +:+ ", " +:+ (a2 +:+ "." +:+ b2) /\
    String.length b1 = 5 /\ String.length b2 = 5.
Proof.
  intros Hlat Hlon. unfold location.
  destruct (toFixed_decimals Number_toString 5 _ Hlat ltac:(lia)) as (a1 & b1 & -> & H1).
  destruct (toFixed_decimals Number_toString 5 _ Hlon ltac:(lia)) as (a2 & b2 & -> & H2).
  by exists a1, b1, a2, b2.
Qed.

Lemma substring_all s : String.substring 0 (String.length s) s = s.
Proof. induction s as [|c s IH]; [done|]. cbn [String.length String.substring]. by rewrite IH. Qed.

Lemma substring_split s : forall p q,
  p + q = String.length s ->
  String.substring 0 p s +:+ String.substring p q s = s.
Proof.
  induction s as [|c s IH]; intros p q H.
  - cbn [String.length] in H. assert (p = 0) as -> by lia. by assert (q = 0) as -> by lia.
  - destruct p as [|p].
    + cbn [Nat.add] in H. subst q. rewrite substring_all. by destruct s.
    + cbn [String.substring]. rewrite string_app_cons. f_equal. apply IH.
      cbn [String.length] in H. lia.
Qed.

Lemma nearest_scaled_nonneg f m e : (0 <= JS.nearest_scaled f m e)%Z.
Proof.
  unfold JS.nearest_scaled. destruct (0 <=? e)%Z eqn:He.
  - apply Z.leb_le in He.
    assert (0 < 2 ^ e)%Z by (apply Z.pow_pos_nonneg; lia).
    assert (0 < 10 ^ Z.of_nat f)%Z by (apply Z.pow_pos_nonneg; lia). nia.
  - apply Z.leb_gt in He.
    assert (0 < 2 ^ (1 - e))%Z by (apply Z.pow_pos_nonneg; lia).
    assert (0 < 2 ^ (- e))%Z by (apply Z.pow_pos_nonneg; lia).
    assert (0 < 10 ^ Z.of_nat f)%Z by (apply Z.pow_pos_nonneg; lia).
    apply Z.div_pos; nia.
Qed.

(** With [f > 0] digits asked for, the fixed notation shows the digits
    of [n], with zeros before them up to [f + 1] digits and a point
    before the last [f]. *)
Lemma fixed_notation_digits f n :
  0 < f ->
  exists a b,
    JS.fixed_notation f n = a +:+ "." +:+ b /\
    String.length b = f /\
    a +:+ b = JS.zeros (f + 1 - String.length (JS.digits n)) +:+ JS.digits n.
Proof.
  intros Hf. unfold JS.fixed_notation.
  destruct (Nat.eqb_spec f 0) as [->|_]; [lia|].
  destruct (Nat.leb_spec (String.length (JS.digits n)) f) as [Hle|Hgt].
  - eexists _, _. split; [done|]. split.
    + apply length_substring. rewrite string_length_app, length_zeros. lia.
    + apply substring_split. rewrite string_length_app, length_zeros. lia.
  - eexists _, _. split; [done|]. split.
    + apply length_substring. lia.
    + replace (f + 1 - String.length (JS.digits n)) with 0 by lia.
      cbn [JS.zeros]. rewrite (substring_split (JS.digits n)) by lia. done.
Qed.

(** A number that [toFixed] prints in fixed notation is shown rounded
    to the digits asked for. *)
Lemma toFixed_rounded Number_toString f x :
  JS.in_fixed_range x = true ->
  0 < f ->
  rounded_to f x (JS.toFixed Number_toString f x).
Proof.
  intros Hx Hf. unfold JS.in_fixed_range in Hx.
  unfold rounded_to, nearest_integer, sign_text, JS.toFixed.
  destruct (Prim2SF x) as [sgn|sgn| |sgn m e]; [|done|done|].
  - destruct (fixed_notation_digits f 0 Hf) as (a & b & -> & Hb & Hab).
    by exists 0%Z, a, b.
  - apply negb_true_iff in Hx. rewrite Hx.
    destruct (fixed_notation_digits f (JS.nearest_scaled f m e) Hf) as (a & b & -> & Hb & Hab).
    exists (JS.nearest_scaled f m e), a, b. split; [|split; [|done]].
    + split; [apply nearest_scaled_nonneg|].
      destruct (Z.leb_spec 0 e) as [He|He].
      * by apply nearest_scaled_integer.
      * by apply nearest_scaled_nearest.
    + by destruct sgn.
Qed.

(** The label of a candidate: the route type when there is one, the net
    distance without decimals, and the unit. *)
Lemma xc_label_cases Number_toString next :
  JS.toFixed Number_toString 0 (net_distance (Solution.scoreInfo next)) <> EmptyString ->
  xc_label Number_toString next
  = match getRouteType (Solution.scoring_code next) with
    | Some label =>
        label +:+ " "
          +:+ JS.toFixed Number_toString 0 (net_distance (Solution.scoreInfo next))
          +:+ " km"
    | None =>
        JS.toFixed Number_toString 0 (net_distance (Solution.scoreInfo next)) +:+ " km"
    end.
Proof.
  intros Hd. unfold xc_label, getRouteType.
  set (d := JS.toFixed _ _ _) in *.
  assert (JS.Boolean_str (Some d) = true) as Hb.
  { unfold JS.Boolean_str. apply negb_true_iff. by apply String.eqb_neq. }
  destruct (String.eqb _ "fai"); [|destruct (String.eqb _ "tri")].
  all: cbn [filter list_filter]; rewrite ?decide_True by (by rewrite ?Hb);
    rewrite ?decide_False by (by intros []).
  all: cbn [filter list_filter]; rewrite ?decide_True by (by rewrite ?Hb); done.
Qed.

(** ** Batches of the elevation lookup *)

Lemma world_eta w : mkWorld (igc w) (requests w) (solves w) (files w) = w.
Proof. by destruct w. Qed.

Lemma length_batch fx k : length (batch fx k) = 100 `min` (length fx - 100 * k).
Proof.
  unfold batch, JS.slice. rewrite length_take, length_drop. f_equal. lia.
Qed.

Lemma lookup_batch fx k j : j < 100 -> batch fx k !! j = fx !! (100 * k + j).
Proof.
  intros Hj. unfold batch, JS.slice.
  rewrite lookup_take_lt by lia. by rewrite lookup_drop.
Qed.

Lemma batches_lt fx k : k < batches fx <-> 100 * k < length fx.
Proof. unfold batches, ceil_div. split; intros; lia. Qed.

Lemma batches_le fx : batches fx <= length fx.
Proof. unfold batches, ceil_div. lia. Qed.

Section Lookup.

Variable Number_toString : JS.number -> string.
Variable service : nat -> string -> Response.t.
Variable server : string.

(** The track, and the number of requests sent before the lookup. *)
Variable fx : list Fix.t.
Variable r0 : nat.

Local Abbreviation loop := (getGroundElevations_loop Number_toString service server (length fx)).
Local Abbreviation batches := (batches fx).
Local Abbreviation batch_url := (batch_url Number_toString server fx).
Local Abbreviation reply := (reply Number_toString service server fx r0).

Lemma lookup_done fuel k result w :
  batches <= k -> loop fuel (100 * k) result w = Return result w.
Proof.
  intros Hk. assert (~ 100 * k < length fx) as Hn by (rewrite <- (batches_lt fx); lia).
  apply Nat.ltb_nlt in Hn.
  destruct fuel; cbn [getGroundElevations_loop]; by rewrite Hn.
Qed.

Lemma lookup_step fuel k result w :
  IGCFile.fixes (igc w) = fx ->
  length (requests w) = r0 + k ->
  k < batches ->
  loop (S fuel) (100 * k) result w =
    if Response.ok (reply k)
    then loop fuel (100 * S k) (result ++ contribution (reply k)) (sent w [batch_url k])
    else Throw (ServerReplies (Response.status (reply k))) (sent w [batch_url k]).
Proof.
  intros Hfx Hr Hk. apply (batches_lt fx) in Hk. apply Nat.ltb_lt in Hk.
  cbn [getGroundElevations_loop]. rewrite Hk.
  unfold bind at 1, get_fixes at 1. rewrite Hfx.
  unfold bind at 1, fetch at 1. rewrite Hr.
  change (request_url Number_toString server
            (JS.slice fx (100 * k) (100 * k + ELEVATION_CHUNK_SIZE)))
    with (batch_url k).
  change (service (r0 + k) (batch_url k)) with (reply k).
  fold (sent w [batch_url k]).
  replace (100 * k + ELEVATION_CHUNK_SIZE) with (100 * S k)
    by (unfold ELEVATION_CHUNK_SIZE; lia).
  destruct (Response.ok (reply k)); [|done].
  unfold contribution, status_OK, answer.
  destruct (JS.startsWith _ _); [done|]. by rewrite app_nil_r.
Qed.

(** No batch is refused: the lookup sends one request per batch, in
    order, and returns the contributions of the responses, in order. *)
Lemma lookup_loop_ok fuel : forall k result w,
  IGCFile.fixes (igc w) = fx ->
  length (requests w) = r0 + k ->
  (forall j, k <= j < batches -> Response.ok (reply j) = true) ->
  batches - k <= fuel ->
  loop fuel (100 * k) result w =
    Return (result ++ concat (map (fun j => contribution (reply j)) (seq k (batches - k))))
           (sent w (map batch_url (seq k (batches - k)))).
Proof.
  induction fuel as [|fuel IH]; intros k result w Hfx Hr Hok Hfuel.
  - replace (batches - k) with 0 by lia. cbn [seq map concat].
    rewrite lookup_done by lia. unfold sent.
    by rewrite !app_nil_r, world_eta.
  - destruct (decide (k < batches)) as [Hk|Hk].
    + rewrite lookup_step by done. rewrite Hok by lia.
      rewrite IH; cycle 1.
      * done.
      * simpl. rewrite length_app, Hr. simpl. lia.
      * intros j Hj. apply Hok. lia.
      * lia.
      * replace (batches - k) with (S (batches - S k)) by lia.
        cbn [seq map concat]. unfold sent; simpl.
        by rewrite <- !app_assoc.
    + replace (batches - k) with 0 by lia. cbn [seq map concat].
      rewrite lookup_done by lia. unfold sent.
      by rewrite !app_nil_r, world_eta.
Qed.

(** Batch [b] is the first one refused: the lookup throws after sending
    the requests of the batches up to [b]. *)
Lemma lookup_loop_throw b fuel : forall k result w,
  IGCFile.fixes (igc w) = fx ->
  length (requests w) = r0 + k ->
  k <= b < batches ->
  (forall j, k <= j < b -> Response.ok (reply j) = true) ->
  Response.ok (reply b) = false ->
  batches - k <= fuel ->
  loop fuel (100 * k) result w =
    Throw (ServerReplies (Response.status (reply b)))
          (sent w (map batch_url (seq k (S b - k)))).
Proof.
  induction fuel as [|fuel IH]; intros k result w Hfx Hr Hb Hok Hbad Hfuel; [lia|].
  rewrite lookup_step by (done || lia).
  destruct (decide (k = b)) as [->|Hne].
  - rewrite Hbad. by replace (S b - b) with 1 by lia.
  - rewrite Hok by lia. rewrite IH; cycle 1.
    + done.
    + simpl. rewrite length_app, Hr. simpl. lia.
    + lia.
    + intros j Hj. apply Hok. lia.
    + done.
    + lia.
    + replace (S b - k) with (S (S b - S k)) by lia.
      cbn [seq map]. unfold sent; simpl. by rewrite <- !app_assoc.
Qed.

End Lookup.

(** ** Lists cut into blocks *)

Section Blocks.

Context {A : Type}.
Variable f : nat -> list A.

Local Abbreviation offset := (offset f).

Lemma offset_S k : offset (S k) = offset k + length (f k).
Proof.
  unfold offset. rewrite seq_S, map_app, concat_app, length_app.
  simpl. by rewrite app_nil_r.
Qed.

Lemma offset_full c k :
  (forall j, j < k -> length (f j) = c) -> offset k = c * k.
Proof.
  induction k as [|k IH]; intros H; [unfold offset; simpl; lia|].
  rewrite offset_S, IH by (intros; apply H; lia).
  rewrite H by lia. lia.
Qed.

Lemma lookup_concat_block n k o :
  k < n -> o < length (f k) ->
  concat (map f (seq 0 n)) !! (offset k + o) = f k !! o.
Proof.
  intros Hk Ho. replace n with (k + S (n - S k)) by lia.
  rewrite seq_app, map_app, concat_app. cbn [seq map concat].
  fold (offset k). rewrite lookup_app_r by (unfold offset; lia).
  replace (offset k + o - length (concat (map f (seq 0 k)))) with o
    by (unfold offset; lia).
  by rewrite lookup_app_l.
Qed.

End Blocks.

Lemma offset_ext {A B} (f : nat -> list A) (g : nat -> list B) k :
  (forall j, j < k -> length (f j) = length (g j)) -> offset f k = offset g k.
Proof.
  induction k as [|k IH]; intros H; [done|].
  rewrite !offset_S, IH by (intros; apply H; lia). by rewrite H by lia.
Qed.

(** Block [b] of [f] is empty and the other blocks are as long as those
    of [g]: from block [b] on, [f] is behind [g] by the length of block
    [b] of [g]. *)
Lemma offset_skip {A B} (f : nat -> list A) (g : nat -> list B) b k :
  b < k ->
  length (f b) = 0 ->
  (forall j, j < k -> j <> b -> length (f j) = length (g j)) ->
  offset f k + length (g b) = offset g k.
Proof.
  induction k as [|k IH]; intros Hb Hempty H; [lia|].
  rewrite !offset_S. destruct (decide (b = k)) as [->|Hne].
  - rewrite (offset_ext f g k) by (intros; apply H; lia). lia.
  - rewrite (H k) by lia.
    specialize (IH ltac:(lia) Hempty ltac:(intros; apply H; lia)). lia.
Qed.

Lemma offset_batch fx k : k < batches fx -> offset (batch fx) k = 100 * k.
Proof.
  intros Hk. apply offset_full. intros j Hj.
  apply batches_lt in Hk. rewrite length_batch. lia.
Qed.

Lemma offset_batches fx : offset (batch fx) (batches fx) = length fx.
Proof.
  destruct (batches fx) as [|m] eqn:Hm.
  - unfold batches, ceil_div in Hm. unfold offset. simpl. lia.
  - assert (m < batches fx) as Hlt by lia.
    rewrite offset_S, offset_batch, length_batch by done.
    apply batches_lt in Hlt. unfold batches, ceil_div in Hm. lia.
Qed.

(** The batches are consecutive slices that make up the track. *)
Lemma concat_batches fx : concat (map (batch fx) (seq 0 (batches fx))) = fx.
Proof.
  apply list_eq. intros i.
  destruct (decide (i < length fx)) as [Hi|Hi].
  - assert (i / 100 < batches fx) as Hk by (apply batches_lt; lia).
    replace i with (offset (batch fx) (i / 100) + i mod 100) at 1
      by (rewrite offset_batch by done; lia).
    rewrite lookup_concat_block; [|done|rewrite length_batch; lia].
    rewrite lookup_batch by lia. f_equal. lia.
  - rewrite (proj2 (lookup_ge_None fx i)) by lia.
    apply lookup_ge_None. fold (offset (batch fx) (batches fx)).
    rewrite offset_batches. lia.
Qed.

(** ** Progressive scoring *)

Lemma with_fixes_id track : IGCFile.with_fixes track (IGCFile.fixes track) = track.
Proof. by destruct track. Qed.

Lemma first_optimal_exists gen n :
  is_optimal (gen n) = true -> exists m, m <= n /\ first_optimal gen m.
Proof.
  induction n as [n IH] using lt_wf_ind. intros Hn.
  destruct (decide (Forall (fun m => is_optimal (gen m) = false) (seq 0 n)))
    as [Hall|Hex].
  - exists n. split; [lia|]. split; [done|]. intros m Hm.
    rewrite Forall_forall in Hall. apply Hall, elem_of_seq. lia.
  - apply not_Forall_Exists in Hex; [|intros m; apply _].
    apply Exists_exists in Hex as (m & Hm & Hopt).
    apply elem_of_seq in Hm. apply not_false_iff_true in Hopt.
    destruct (IH m ltac:(lia) Hopt) as (m' & Hle & Hfirst).
    exists m'. split; [lia|done].
Qed.

(** From a solver that converges on each of finitely many tracks, a bound
    on the candidates to pull. *)
Lemma bounded_convergence (P : nat -> nat -> Prop) K :
  (forall j, j < K -> exists n, P j n) ->
  exists F, forall j, j < K -> exists n, n < F /\ P j n.
Proof.
  induction K as [|K IH]; intros H.
  - exists 0. intros j Hj. lia.
  - destruct IH as [F HF]; [intros j Hj; apply H; lia|].
    destruct (H K ltac:(lia)) as [n Hn].
    exists (F `max` S n). intros j Hj.
    destruct (decide (j = K)) as [->|Hne].
    + exists n. split; [lia|done].
    + destruct (HF j ltac:(lia)) as (m & Hm & HP). exists m. split; [lia|done].
Qed.

Lemma chunks_lt track k : k < chunks track <-> 60 * k < length (IGCFile.fixes track).
Proof. unfold chunks, ceil_div. split; intros; lia. Qed.

Lemma chunks_le track : chunks track <= length (IGCFile.fixes track).
Proof. unfold chunks, ceil_div. lia. Qed.

Lemma length_chunk track k :
  length (chunk track k) = 60 `min` (length (IGCFile.fixes track) - 60 * k).
Proof.
  unfold chunk, JS.slice. rewrite length_take, length_drop. f_equal. lia.
Qed.

Lemma lookup_chunk track k j :
  j < 60 -> chunk track k !! j = IGCFile.fixes track !! (60 * k + j).
Proof.
  intros Hj. unfold chunk, JS.slice.
  rewrite lookup_take_lt by lia. by rewrite lookup_drop.
Qed.

Lemma last_chunk track k :
  k < chunks track ->
  last (chunk track k)
  = IGCFile.fixes track !! ((60 * S k) `min` length (IGCFile.fixes track) - 1).
Proof.
  intros Hk. apply chunks_lt in Hk.
  rewrite last_lookup, length_chunk.
  rewrite lookup_chunk by lia. f_equal. lia.
Qed.

Lemma last_chunk_is_Some track k : k < chunks track -> is_Some (last (chunk track k)).
Proof.
  intros Hk. rewrite last_chunk by done. apply chunks_lt in Hk.
  apply lookup_lt_is_Some. lia.
Qed.

Lemma prefix_chunk track k :
  take (60 * k) (IGCFile.fixes track) ++ chunk track k
  = take (60 * S k) (IGCFile.fixes track).
Proof.
  unfold chunk, JS.slice. rewrite take_take_drop. f_equal. lia.
Qed.

Lemma prefix_track_full track n :
  length (IGCFile.fixes track) <= n -> prefix_track track n = track.
Proof.
  intros Hn. unfold prefix_track. rewrite take_ge by done. apply with_fixes_id.
Qed.

Lemma scored_nil track w : igc w = track -> scored track w [] = w.
Proof. intros H. unfold scored. rewrite <- H, app_nil_r. apply world_eta. Qed.

(** The candidates are pulled up to the first optimal one, and the world
    is left as it was. *)
Lemma drive_first_optimal Number_toString gen ck firstTimestamp lastFix n w :
  first_optimal gen n ->
  last ck = Some lastFix ->
  forall fuel n0, n0 <= n -> n - n0 < fuel ->
    drive Number_toString gen ck firstTimestamp fuel n0 w =
      Return (xc_label Number_toString (gen n),
              avg_speed (gen n) (Fix.timestamp lastFix) firstTimestamp) w.
Proof.
  intros [Hopt Hbefore] Hlast. induction fuel as [|fuel IH]; intros n0 Hle Hfuel; [lia|].
  cbn [drive]. destruct (decide (n0 = n)) as [->|Hne].
  - by rewrite Hopt, Hlast.
  - rewrite Hbefore by lia. apply IH; lia.
Qed.

Lemma drive_world Number_toString gen ck firstTimestamp fuel : forall n0 w r w',
  drive Number_toString gen ck firstTimestamp fuel n0 w = Return r w' -> w' = w.
Proof.
  induction fuel as [|fuel IH]; intros n0 w r w' H; cbn [drive] in H; [done|].
  destruct (is_optimal (gen n0)); [|by eapply IH].
  destruct (last ck); [|done]. unfold ret in H. congruence.
Qed.

Section Scoring.

Variable Number_toString : JS.number -> string.
Variable solver : IGCFile.t -> nat -> Solution.t.

(** The track as it was read, and the timestamp of its first fix. *)
Variable track : IGCFile.t.
Variable firstTimestamp : JS.number.

Local Abbreviation fx := (IGCFile.fixes track).
Local Abbreviation chunk := (chunk track).
Local Abbreviation chunks := (chunks track).
Local Abbreviation prefix_track := (prefix_track track).
Local Abbreviation solved_track := (solved_track track).
Local Abbreviation scored := (scored track).
Local Abbreviation scored_row := (scored_row Number_toString solver track firstTimestamp).

Local Abbreviation loop := (processData_loop Number_toString solver).

Lemma scoring_done sfuel elevations fuel k acc w :
  chunks <= k ->
  loop sfuel elevations fx firstTimestamp fuel (60 * k) acc w = Return acc w.
Proof.
  intros Hk. assert (~ 60 * k < length fx) as Hn by (rewrite <- chunks_lt; lia).
  apply Nat.ltb_nlt in Hn.
  destruct fuel; cbn [processData_loop]; by rewrite Hn.
Qed.

Lemma scoring_step sfuel elevations fuel k acc w n lastFix :
  igc w = prefix_track (60 * k) ->
  k < chunks ->
  first_optimal (solver (solved_track k)) n ->
  n < sfuel ->
  last (chunk k) = Some lastFix ->
  loop sfuel elevations fx firstTimestamp (S fuel) (60 * k) acc w =
    loop sfuel elevations fx firstTimestamp fuel (60 * S k)
      (acc ++ target_rows elevations (60 * k)
                (xc_label Number_toString (solver (solved_track k) n))
                (avg_speed (solver (solved_track k) n)
                           (Fix.timestamp lastFix) firstTimestamp)
                (chunk k))
      (mkWorld (solved_track k) (requests w)
               (solves w ++ [solved_track k]) (files w)).
Proof.
  intros Higc Hk Hfirst Hn Hlast.
  apply chunks_lt in Hk. apply Nat.ltb_lt in Hk.
  cbn [processData_loop]. rewrite Hk.
  change (JS.slice fx (60 * k) (60 * k + SCORING_CHUNK_SIZE)) with (chunk k).
  replace (60 * k + SCORING_CHUNK_SIZE) with (60 * S k)
    by (unfold SCORING_CHUNK_SIZE; lia).
  assert (IGCFile.with_fixes (igc w) (IGCFile.fixes (igc w) ++ chunk k)
          = solved_track k) as Hnext.
  { rewrite Higc. unfold solved_track, prefix_track.
    cbn [IGCFile.fixes IGCFile.with_fixes IGCFile.date].
    by rewrite prefix_chunk. }
  unfold bind at 1, get_fixes at 1.
  unfold bind at 1, set_fixes at 1.
  unfold bind at 1, xcs_solver at 1. cbn [igc requests solves files].
  rewrite Hnext. unfold bind at 1.
  rewrite (drive_first_optimal _ _ _ _ lastFix n) by (done || lia).
  done.
Qed.

Lemma length_target_rows elevations i xc avgSpeed ck :
  length (target_rows elevations i xc avgSpeed ck) = length ck.
Proof. apply length_imap. Qed.

(** The loop from round [k] on: it returns, having appended one row per
    remaining fix, handed the solver the prefixes of the remaining
    rounds, and left the whole track in [igc.fixes]. *)
Lemma scoring_loop_spec sfuel elevations fuel : forall k acc w,
  igc w = prefix_track (60 * k) ->
  (forall j, k <= j < chunks ->
     exists n, n < sfuel /\ is_optimal (solver (solved_track j) n) = true) ->
  chunks - k <= fuel ->
  exists rest,
    loop sfuel elevations fx firstTimestamp fuel (60 * k) acc w =
      Return (acc ++ rest) (scored w (map solved_track (seq k (chunks - k)))) /\
    length rest = length fx - 60 * k /\
    forall i, 60 * k <= i < length fx ->
      exists row, rest !! (i - 60 * k) = Some row /\ scored_row elevations i row.
Proof.
  induction fuel as [|fuel IH]; intros k acc w Higc Hconv Hfuel.
  all: destruct (decide (k < chunks)) as [Hk|Hk]; [try lia|].
  1, 3: exists []; replace (chunks - k) with 0 by lia; cbn [seq map];
    rewrite scoring_done by lia;
    assert (length fx <= 60 * k) as Hlen
      by (apply Nat.nlt_ge; rewrite <- chunks_lt; lia);
    rewrite scored_nil, app_nil_r by (rewrite Higc; by apply prefix_track_full);
    (split; [done|]); (split; [simpl; lia|]); intros i Hi; lia.
  destruct (Hconv k ltac:(lia)) as (n' & Hn' & Hopt).
  destruct (first_optimal_exists _ _ Hopt) as (n & Hle & Hfirst).
  destruct (last_chunk_is_Some track k Hk) as [lastFix Hlast].
  rewrite (scoring_step _ _ _ _ _ _ n lastFix) by (done || lia).
  set (xc := xc_label _ _). set (avgSpeed := avg_speed _ _ _).
  set (w1 := mkWorld _ _ _ _).
  destruct (IH (S k) (acc ++ target_rows elevations (60 * k) xc avgSpeed (chunk k)) w1)
    as (rest & Hrun & Hlen & Hrows); [done| |lia|].
  { intros j Hj. apply Hconv. lia. }
  exists (target_rows elevations (60 * k) xc avgSpeed (chunk k) ++ rest).
  pose proof (proj1 (chunks_lt track k) Hk) as Hlt.
  split; [|split].
  - rewrite Hrun. replace (chunks - k) with (S (chunks - S k)) by lia.
    cbn [seq map]. unfold scored, w1. cbn [requests solves files].
    by rewrite <- !app_assoc.
  - rewrite length_app, length_target_rows, length_chunk, Hlen. lia.
  - intros i Hi. destruct (decide (i < 60 * S k)) as [Hin|Hout].
    + rewrite lookup_app_l by (rewrite length_target_rows, length_chunk; lia).
      unfold target_rows. rewrite list_lookup_imap, lookup_chunk by lia.
      replace (60 * k + (i - 60 * k)) with i by lia.
      destruct (lookup_lt_is_Some_2 fx i ltac:(lia)) as [fix_ Hfix].
      rewrite Hfix. cbn [fmap option_fmap option_map]. eexists. split; [done|].
      assert (i / 60 = k) as Hdiv by lia.
      exists fix_, lastFix, n. rewrite Hdiv. done.
    + rewrite lookup_app_r by (rewrite length_target_rows, length_chunk; lia).
      rewrite length_target_rows, length_chunk.
      replace (i - 60 * k - 60 `min` (length fx - 60 * k)) with (i - 60 * S k) by lia.
      apply Hrows. lia.
Qed.

(** However the solver behaves, a loop that returns leaves the whole
    track in [igc.fixes]. *)
Lemma scoring_loop_restores sfuel elevations fuel : forall k acc w out w',
  igc w = prefix_track (60 * k) ->
  loop sfuel elevations fx firstTimestamp fuel (60 * k) acc w = Return out w' ->
  igc w' = track.
Proof.
  induction fuel as [|fuel IH]; intros k acc w out w' Higc Hrun.
  all: cbn [processData_loop] in Hrun.
  all: destruct (60 * k <? length fx) eqn:Hlt; [|
    apply Nat.ltb_ge in Hlt; unfold ret in Hrun;
    assert (w' = w) as -> by congruence;
    rewrite Higc; by apply prefix_track_full].
  - done.
  - unfold bind at 1, get_fixes at 1 in Hrun.
    unfold bind at 1, set_fixes at 1 in Hrun.
    unfold bind at 1, xcs_solver at 1 in Hrun. cbn [igc requests solves files] in Hrun.
    unfold bind at 1 in Hrun.
    destruct (drive _ _ _ _ _ _ _) as [[xc avgSpeed] w1| |] eqn:Hdrive; [|done|done].
    apply drive_world in Hdrive. subst w1.
    change (JS.slice fx (60 * k) (60 * k + SCORING_CHUNK_SIZE)) with (chunk k) in Hrun.
    replace (60 * k + SCORING_CHUNK_SIZE) with (60 * S k) in Hrun
      by (unfold SCORING_CHUNK_SIZE; lia).
    apply IH in Hrun; [done|]. cbn [igc]. rewrite Higc.
    unfold prefix_track. cbn [IGCFile.fixes IGCFile.with_fixes IGCFile.date].
    by rewrite prefix_chunk.
Qed.

End Scoring.

(** ** The lookup as a whole *)

Section ElevationRun.

Variable Number_toString : JS.number -> string.
Variable service : nat -> string -> Response.t.

Local Abbreviation reply_in := (reply_in Number_toString service).
Local Abbreviation request_urls := (request_urls Number_toString).
Local Abbreviation gathered := (gathered Number_toString service).

Lemma getGroundElevations_ok server w :
  (forall k, k < batches (IGCFile.fixes (igc w)) ->
     Response.ok (reply_in server w k) = true) ->
  getGroundElevations Number_toString service server w =
    Return (gathered server w)
           (sent w (request_urls server w (batches (IGCFile.fixes (igc w))))).
Proof.
  intros Hok. unfold getGroundElevations, bind, get_fixes.
  change 0 with (100 * 0) at 1.
  rewrite (lookup_loop_ok _ _ _ _ (length (requests w))); cycle 1.
  - done.
  - lia.
  - intros j Hj. apply Hok. lia.
  - pose proof (batches_le (IGCFile.fixes (igc w))). lia.
  - by rewrite Nat.sub_0_r.
Qed.

Lemma getGroundElevations_throw server w b :
  b < batches (IGCFile.fixes (igc w)) ->
  (forall k, k < b -> Response.ok (reply_in server w k) = true) ->
  Response.ok (reply_in server w b) = false ->
  getGroundElevations Number_toString service server w =
    Throw (ServerReplies (Response.status (reply_in server w b)))
          (sent w (request_urls server w (S b))).
Proof.
  intros Hb Hok Hbad. unfold getGroundElevations, bind, get_fixes.
  change 0 with (100 * 0) at 1.
  rewrite (lookup_loop_throw _ _ _ _ (length (requests w)) b); cycle 1.
  - done.
  - lia.
  - lia.
  - intros j Hj. apply Hok. lia.
  - done.
  - pose proof (batches_le (IGCFile.fixes (igc w))). lia.
  - by rewrite Nat.sub_0_r.
Qed.

(** A refused batch has a first refused batch before or at it. *)
Lemma first_refused server w b :
  Response.ok (reply_in server w b) = false ->
  exists b', b' <= b /\ Response.ok (reply_in server w b') = false /\
             forall k, k < b' -> Response.ok (reply_in server w k) = true.
Proof.
  induction b as [b IH] using lt_wf_ind. intros Hbad.
  destruct (decide (Forall (fun k => Response.ok (reply_in server w k) = true) (seq 0 b)))
    as [Hall|Hex].
  - exists b. split; [lia|]. split; [done|]. intros k Hk.
    rewrite Forall_forall in Hall. apply Hall, elem_of_seq. lia.
  - apply not_Forall_Exists in Hex; [|intros k; apply _].
    apply Exists_exists in Hex as (k & Hk & Hno).
    apply elem_of_seq in Hk. apply not_true_is_false in Hno.
    destruct (IH k ltac:(lia) Hno) as (b' & Hle & Hb' & Hbefore).
    exists b'. split; [lia|done].
Qed.

Lemma lookup_loop_frame server dataLength fuel : forall i result w r w',
  getGroundElevations_loop Number_toString service server dataLength fuel i result w
    = Return r w' ->
  igc w' = igc w /\ solves w' = solves w /\ files w' = files w.
Proof.
  induction fuel as [|fuel IH]; intros i result w r w' H.
  all: cbn [getGroundElevations_loop] in H.
  all: destruct (i <? dataLength);
    [|unfold ret in H; assert (w' = w) as -> by congruence; done].
  - done.
  - unfold bind at 1, get_fixes at 1 in H. unfold bind at 1, fetch at 1 in H.
    destruct (Response.ok _); [|done].
    destruct (JS.startsWith _ _); apply IH in H; exact H.
Qed.

Lemma getGroundElevations_frame server w r w' :
  getGroundElevations Number_toString service server w = Return r w' ->
  igc w' = igc w /\ solves w' = solves w /\ files w' = files w.
Proof.
  unfold getGroundElevations, bind, get_fixes. apply lookup_loop_frame.
Qed.

End ElevationRun.

(** ** The pipeline as a whole *)

(** Enough fuel for the solver on every prefix handed to it. *)
Lemma converges_bound solver track :
  converges solver track ->
  exists F, forall sfuel, F <= sfuel -> forall j, j < chunks track ->
    exists n, n < sfuel /\ is_optimal (solver (solved_track track j) n) = true.
Proof.
  intros Hconv.
  destruct (bounded_convergence
              (fun j n => is_optimal (solver (solved_track track j) n) = true)
              (chunks track)) as [F HF].
  { intros j _. apply Hconv. }
  exists F. intros sfuel Hle j Hj. destruct (HF j Hj) as (n & Hn & Hopt).
  exists n. split; [lia|done].
Qed.

Section Pipeline.

Variable Number_toString : JS.number -> string.
Variable service : nat -> string -> Response.t.
Variable solver : IGCFile.t -> nat -> Solution.t.

Local Abbreviation reply_in := (reply_in Number_toString service).
Local Abbreviation request_urls := (request_urls Number_toString).
Local Abbreviation gathered := (gathered Number_toString service).

(** [processData] on a track with fixes, when no batch is refused and
    the solver converges within [sfuel] candidates on every prefix it
    is handed. *)
Lemma processData_returns sfuel server w :
  IGCFile.fixes (igc w) <> [] ->
  (forall k, k < batches (IGCFile.fixes (igc w)) ->
     Response.ok (reply_in server w k) = true) ->
  (forall j, j < chunks (igc w) ->
     exists n, n < sfuel /\ is_optimal (solver (solved_track (igc w) j) n) = true) ->
  exists out fix0,
    processData Number_toString service solver sfuel server w =
      Return out
        (mkWorld (igc w)
           (requests w ++ request_urls server w (batches (IGCFile.fixes (igc w))))
           (solves w ++ map (solved_track (igc w)) (seq 0 (chunks (igc w))))
           (files w)) /\
    IGCFile.fixes (igc w) !! 0 = Some fix0 /\
    length out = length (IGCFile.fixes (igc w)) /\
    forall i, i < length (IGCFile.fixes (igc w)) ->
      exists row, out !! i = Some row /\
        scored_row Number_toString solver (igc w) (Fix.timestamp fix0)
                   (gathered server w) i row.
Proof.
  intros Hne Hok Hconv. unfold processData, bind at 1.
  rewrite getGroundElevations_ok by done.
  unfold bind at 1, get_fixes at 1. cbn [igc sent].
  destruct (IGCFile.fixes (igc w)) as [|fix0 tl] eqn:Efx; [done|].
  rewrite <- Efx. unfold bind at 1, set_fixes at 1. cbn [igc requests solves files].
  set (w1 := mkWorld _ _ _ _).
  destruct (scoring_loop_spec Number_toString solver (igc w) (Fix.timestamp fix0)
              sfuel (gathered server w) (length (IGCFile.fixes (igc w))) 0 [] w1)
    as (rest & Hrun & Hlen & Hrows).
  - done.
  - intros j Hj. apply Hconv. lia.
  - pose proof (chunks_le (igc w)). lia.
  - exists rest, fix0. change (60 * 0) with 0 in Hrun. rewrite Hrun.
    rewrite Nat.sub_0_r in *. split; [done|]. split; [by rewrite Efx|].
    split; [done|]. intros i Hi.
    destruct (Hrows i ltac:(lia)) as (row & Hrow & Hscored).
    rewrite Nat.sub_0_r in Hrow. by exists row.
Qed.

(** However the service and the solver behave, a [processData] that
    returns leaves the track as it found it. *)
Lemma processData_restores sfuel server w out w' :
  processData Number_toString service solver sfuel server w = Return out w' ->
  igc w' = igc w.
Proof.
  unfold processData, bind at 1. intros H.
  destruct (getGroundElevations _ _ _ _) as [elevations w1| |] eqn:Hlookup; [|done|done].
  apply getGroundElevations_frame in Hlookup as (Higc & _ & _).
  unfold bind at 1, get_fixes at 1 in H.
  destruct (IGCFile.fixes (igc w1)) as [|fix0 tl] eqn:Efx.
  - unfold ret in H. assert (w' = w1) as -> by congruence. done.
  - rewrite <- Efx in H. unfold bind at 1, set_fixes at 1 in H.
    change 0 with (60 * 0) in H at 1.
    eapply (scoring_loop_restores _ _ (igc w1)) in H; [congruence|done].
Qed.

End Pipeline.

(** ** Properties of the processed output *)

Lemma first_optimal_unique gen n m :
  first_optimal gen n -> first_optimal gen m -> n = m.
Proof.
  intros [Hn Hbn] [Hm Hbm].
  destruct (Nat.lt_trichotomy n m) as [Hlt|[->|Hlt]]; [|done|].
  - rewrite (Hbm n Hlt) in Hn. discriminate.
  - rewrite (Hbn m Hlt) in Hm. discriminate.
Qed.

Section Output.

Variable Number_toString : JS.number -> string.
Variable service : nat -> string -> Response.t.
Variable solver : IGCFile.t -> nat -> Solution.t.

Local Abbreviation processData' := (processData Number_toString service solver).
Local Abbreviation all_success := (all_success Number_toString service).
Local Abbreviation none_refused := (none_refused Number_toString service).

Lemma all_success_none_refused server w :
  all_success server w -> none_refused server w.
Proof.
  intros H k Hk. specialize (H k Hk). unfold reports_success in H.
  by apply andb_true_iff in H as [? _].
Qed.

Lemma processData_total server w :
  IGCFile.fixes (igc w) <> [] ->
  none_refused server w ->
  converges solver (igc w) ->
  exists F, forall sfuel, F <= sfuel ->
    exists out fix0,
      processData' sfuel server w =
        Return out
          (mkWorld (igc w)
             (requests w ++ request_urls Number_toString server w
                              (batches (IGCFile.fixes (igc w))))
             (solves w ++ map (solved_track (igc w)) (seq 0 (chunks (igc w))))
             (files w)) /\
      IGCFile.fixes (igc w) !! 0 = Some fix0 /\
      length out = length (IGCFile.fixes (igc w)) /\
      forall i, i < length (IGCFile.fixes (igc w)) ->
        exists row, out !! i = Some row /\
          scored_row Number_toString solver (igc w) (Fix.timestamp fix0)
                     (gathered Number_toString service server w) i row.
Proof.
  intros Hne Hok Hconv. destruct (converges_bound _ _ Hconv) as [F HF].
  exists F. intros sfuel Hle. apply processData_returns; [done|done|].
  by apply HF.
Qed.

(** C1: for a non-empty track whose elevation batches all report
    success and whose solver reaches an optimal candidate on every
    prefix, [processData] returns one row per fix, and row [i] carries
    the time of fix [i]. *)
Theorem C1_one_row_per_fix server w :
  IGCFile.fixes (igc w) <> [] ->
  all_success server w ->
  converges solver (igc w) ->
  exists F, forall sfuel, F <= sfuel ->
    exists out w',
      processData' sfuel server w = Return out w' /\
      length out = length (IGCFile.fixes (igc w)) /\
      forall i, TargetData.time <$> out !! i
                = Fix.time <$> IGCFile.fixes (igc w) !! i.
Proof.
  intros Hne Hok Hconv.
  destruct (processData_total server w Hne (all_success_none_refused _ _ Hok) Hconv)
    as [F HF].
  exists F. intros sfuel Hle.
  destruct (HF sfuel Hle) as (out & fix0 & Hrun & _ & Hlen & Hrows).
  eexists out, _. split; [exact Hrun|]. split; [done|]. intros i.
  destruct (decide (i < length (IGCFile.fixes (igc w)))) as [Hi|Hi].
  - destruct (Hrows i Hi) as (row & Hrow & fix_ & lastFix & n & Hfix & _ & _ & ->).
    by rewrite Hrow, Hfix.
  - rewrite (proj2 (lookup_ge_None out i)) by lia.
    by rewrite (proj2 (lookup_ge_None (IGCFile.fixes (igc w)) i)) by lia.
Qed.

(** The rows of chunk [k] in the output of a run that returns. *)
Lemma processData_chunk_rows server w :
  IGCFile.fixes (igc w) <> [] ->
  none_refused server w ->
  converges solver (igc w) ->
  exists F, forall sfuel, F <= sfuel ->
    exists out w' fix0,
      processData' sfuel server w = Return out w' /\
      IGCFile.fixes (igc w) !! 0 = Some fix0 /\
      forall k i, 60 * k <= i < (60 * (k + 1)) `min` length (IGCFile.fixes (igc w)) ->
        exists row n lastFix,
          out !! i = Some row /\
          first_optimal (solver (solved_track (igc w) k)) n /\
          last (chunk (igc w) k) = Some lastFix /\
          TargetData.xc row = xc_label Number_toString (solver (solved_track (igc w) k) n) /\
          TargetData.avgSpeed row =
            avg_speed (solver (solved_track (igc w) k) n)
                      (Fix.timestamp lastFix) (Fix.timestamp fix0).
Proof.
  intros Hne Hok Hconv.
  destruct (processData_total server w Hne Hok Hconv) as [F HF].
  exists F. intros sfuel Hle.
  destruct (HF sfuel Hle) as (out & fix0 & Hrun & Hfix0 & Hlen & Hrows).
  eexists out, _, fix0. split; [exact Hrun|]. split; [done|].
  intros k i Hi.
  destruct (Hrows i ltac:(lia))
    as (row & Hrow & fix_ & lastFix & n & Hfix & Hlast & Hfirst & ->).
  assert (i / 60 = k) as Hdiv by lia. rewrite Hdiv in *.
  eexists _, n, lastFix. split; [exact Hrow|]. done.
Qed.

(** C3: in the output of [processData], which returns when no batch is
    refused and the solver converges, the rows of the fixes of chunk [k],
    those with index from [60 * k] up to [min (60 * (k + 1)) total],
    carry the same label and the same average speed: those of the first
    optimal candidate the solver yields for the prefix that ends with
    chunk [k]. The label holds the route type and the scoring
    distance. *)
Theorem C3_chunk_rows_share_score server w :
  IGCFile.fixes (igc w) <> [] ->
  none_refused server w ->
  converges solver (igc w) ->
  exists F, forall sfuel, F <= sfuel ->
    exists out w' fix0,
      processData' sfuel server w = Return out w' /\
      IGCFile.fixes (igc w) !! 0 = Some fix0 /\
      (forall k i, 60 * k <= i < (60 * (k + 1)) `min` length (IGCFile.fixes (igc w)) ->
         exists row n lastFix,
           out !! i = Some row /\
           first_optimal (solver (solved_track (igc w) k)) n /\
           last (chunk (igc w) k) = Some lastFix /\
           TargetData.xc row = xc_label Number_toString (solver (solved_track (igc w) k) n) /\
           TargetData.avgSpeed row =
             avg_speed (solver (solved_track (igc w) k) n)
                       (Fix.timestamp lastFix) (Fix.timestamp fix0)) /\
      (forall k i i' row row',
         60 * k <= i < (60 * (k + 1)) `min` length (IGCFile.fixes (igc w)) ->
         60 * k <= i' < (60 * (k + 1)) `min` length (IGCFile.fixes (igc w)) ->
         out !! i = Some row -> out !! i' = Some row' ->
         TargetData.xc row = TargetData.xc row' /\
         TargetData.avgSpeed row = TargetData.avgSpeed row').
Proof.
  intros Hne Hok Hconv.
  destruct (processData_chunk_rows server w Hne Hok Hconv)
    as [F HF].
  exists F. intros sfuel Hle.
  destruct (HF sfuel Hle) as (out & w' & fix0 & Hrun & Hfix0 & Hchunk).
  exists out, w', fix0. split; [exact Hrun|]. split; [done|]. split; [done|].
  intros k i i' row row' Hi Hi' Hrow Hrow'.
  destruct (Hchunk k i Hi) as (r & n & lf & Hr & Hn & Hlf & Hxc & Hsp).
  destruct (Hchunk k i' Hi') as (r' & n' & lf' & Hr' & Hn' & Hlf' & Hxc' & Hsp').
  assert (r = row) as -> by congruence. assert (r' = row') as -> by congruence.
  rewrite Hxc, Hxc', Hsp, Hsp', (first_optimal_unique _ _ _ Hn Hn').
  assert (lf = lf') as -> by congruence. done.
Qed.

(** C4, as amended: for every chunk, with [T] the timestamp of the
    chunk's last fix minus that of the track's first fix, in
    milliseconds, the average speed of the chunk's rows is the distance
    of the optimal candidate, not reduced by the penalty, divided by
    [T / 3_600_000]. *)
Theorem C4_average_speed_of_solved_distance server w :
  IGCFile.fixes (igc w) <> [] ->
  none_refused server w ->
  converges solver (igc w) ->
  exists F, forall sfuel, F <= sfuel ->
    exists out w' fix0,
      processData' sfuel server w = Return out w' /\
      IGCFile.fixes (igc w) !! 0 = Some fix0 /\
      forall k i, 60 * k <= i < (60 * (k + 1)) `min` length (IGCFile.fixes (igc w)) ->
        exists row n lastFix,
          out !! i = Some row /\
          first_optimal (solver (solved_track (igc w) k)) n /\
          IGCFile.fixes (igc w)
            !! ((60 * (k + 1)) `min` length (IGCFile.fixes (igc w)) - 1) = Some lastFix /\
          TargetData.avgSpeed row =
            PrimFloat.div
              (ScoreInfo.distance (Solution.scoreInfo (solver (solved_track (igc w) k) n)))
              (PrimFloat.div
                 (PrimFloat.sub (Fix.timestamp lastFix) (Fix.timestamp fix0))
                 3600000%float).
Proof.
  intros Hne Hok Hconv.
  destruct (processData_chunk_rows server w Hne Hok Hconv)
    as [F HF].
  exists F. intros sfuel Hle.
  destruct (HF sfuel Hle) as (out & w' & fix0 & Hrun & Hfix0 & Hchunk).
  exists out, w', fix0. split; [exact Hrun|]. split; [done|].
  intros k i Hi.
  destruct (Hchunk k i Hi) as (row & n & lastFix & Hrow & Hn & Hlast & _ & Hsp).
  exists row, n, lastFix. split; [done|]. split; [done|]. split; [|exact Hsp].
  rewrite last_chunk in Hlast by (apply chunks_lt; lia).
  by replace (60 * (k + 1)) with (60 * S k) by lia.
Qed.

(** C7: on a track without fixes [processData] returns the empty
    output and calls neither the elevation service nor the solver. *)
Theorem C7_empty_track sfuel server w :
  IGCFile.fixes (igc w) = [] ->
  exists w',
    processData Number_toString service solver sfuel server w = Return [] w' /\
    requests w' = requests w /\ solves w' = solves w.
Proof.
  intros Hfx. exists w.
  unfold processData, bind, getGroundElevations, bind, get_fixes.
  rewrite Hfx. cbn. by rewrite Hfx.
Qed.

(** C9, as amended: on a track of 150 fixes the scoring loop runs three
    times, on the prefixes of 60, 120 and 150 fixes, and the lookup
    sends exactly two requests, for a batch of 100 fixes and a batch of
    50 fixes. *)
Theorem C9_track_of_150_fixes server w :
  length (IGCFile.fixes (igc w)) = 150 ->
  none_refused server w ->
  converges solver (igc w) ->
  exists F, forall sfuel, F <= sfuel ->
    exists out w',
      processData' sfuel server w = Return out w' /\
      solves w' = solves w ++ [prefix_track (igc w) 60;
                               prefix_track (igc w) 120;
                               prefix_track (igc w) 150] /\
      map (fun t => length (IGCFile.fixes t))
          [prefix_track (igc w) 60; prefix_track (igc w) 120; prefix_track (igc w) 150]
        = [60; 120; 150] /\
      requests w' = requests w
        ++ [request_url Number_toString server (take 100 (IGCFile.fixes (igc w)));
            request_url Number_toString server (drop 100 (IGCFile.fixes (igc w)))] /\
      length (take 100 (IGCFile.fixes (igc w))) = 100 /\
      length (drop 100 (IGCFile.fixes (igc w))) = 50.
Proof.
  intros Hlen Hok Hconv.
  assert (IGCFile.fixes (igc w) <> []) as Hne
    by (intros E; rewrite E in Hlen; discriminate).
  destruct (processData_total server w Hne Hok Hconv) as [F HF].
  exists F. intros sfuel Hle.
  destruct (HF sfuel Hle) as (out & fix0 & Hrun & _).
  assert (chunks (igc w) = 3) as Hchunks
    by (unfold chunks, ceil_div; by rewrite Hlen).
  assert (batches (IGCFile.fixes (igc w)) = 2) as Hbatches
    by (unfold batches, ceil_div; by rewrite Hlen).
  rewrite Hchunks, Hbatches in Hrun.
  eexists out, _. split; [exact Hrun|]. cbn [solves requests].
  split; [|split; [|split; [|split]]].
  - f_equal. cbn [seq map]. unfold solved_track.
    rewrite (prefix_track_full (igc w) (60 * 3)), (prefix_track_full (igc w) 150) by lia.
    done.
  - cbn [map prefix_track IGCFile.fixes IGCFile.with_fixes].
    rewrite !length_take, Hlen. done.
  - f_equal. unfold request_urls. cbn [seq map]. unfold batch_url, batch, JS.slice.
    rewrite (take_ge (drop (100 * 1) _)) by (rewrite length_drop; lia).
    done.
  - rewrite length_take. lia.
  - rewrite length_drop. lia.
Qed.

(** C10: [processData] reassigns [igc.fixes], first to the empty list
    and then to one more chunk per round, so that the solver is handed
    the growing prefixes; whenever it returns, [igc.fixes] is the
    original sequence again. It does return when no batch is refused and
    the solver converges. *)
Theorem C10_track_restored server w :
  (forall sfuel out w',
     processData' sfuel server w = Return out w' ->
     IGCFile.fixes (igc w') = IGCFile.fixes (igc w)) /\
  (none_refused server w ->
   converges solver (igc w) ->
   exists F, forall sfuel, F <= sfuel ->
     exists out w',
       processData' sfuel server w = Return out w' /\
       solves w' = solves w ++ map (solved_track (igc w)) (seq 0 (chunks (igc w))) /\
       IGCFile.fixes (igc w') = IGCFile.fixes (igc w)).
Proof.
  split.
  - intros sfuel out w' Hrun. by rewrite (processData_restores _ _ _ _ _ _ _ _ Hrun).
  - intros Hok Hconv.
    destruct (decide (IGCFile.fixes (igc w) = [])) as [Hnil|Hne].
    + exists 0. intros sfuel _. exists [], w. split; [|split; [|done]].
      * unfold processData, bind, getGroundElevations, bind, get_fixes.
        rewrite Hnil. cbn. by rewrite Hnil.
      * unfold chunks. rewrite Hnil. cbn. by rewrite app_nil_r.
    + destruct (processData_total server w Hne Hok Hconv) as [F HF].
      exists F. intros sfuel Hle.
      destruct (HF sfuel Hle) as (out & fix0 & Hrun & _).
      eexists out, _. split; [exact Hrun|]. done.
Qed.

End Output.


(** ** Properties of the elevation lookup *)

(** [ceil_div n 100] is the least number of hundreds that cover [n]. *)
Lemma ceil_div_100 n : n <= 100 * ceil_div n 100 < n + 100.
Proof. unfold ceil_div. lia. Qed.

Section LookupClaims.

Variable Number_toString : JS.number -> string.
Variable service : nat -> string -> Response.t.

Local Abbreviation reply_in := (reply_in Number_toString service).
Local Abbreviation request_urls := (request_urls Number_toString).
Local Abbreviation gathered := (gathered Number_toString service).
Local Abbreviation getGroundElevations' := (getGroundElevations Number_toString service).

Lemma length_request_urls server w n : length (request_urls server w n) = n.
Proof. unfold request_urls. by rewrite length_map, length_seq. Qed.

Lemma lookup_request_urls server w n k :
  k < n ->
  request_urls server w n !! k
  = Some (request_url Number_toString server (batch (IGCFile.fixes (igc w)) k)).
Proof.
  intros Hk. unfold request_urls. rewrite list_lookup_fmap.
  by rewrite (lookup_seq_lt 0 n k Hk).
Qed.

(** When each response adds as many elevations as its batch has fixes,
    the elevations gathered are as many as the fixes, and position [i]
    holds the one that the response to the batch of fix [i] lists for
    it. *)
Lemma gathered_length server w :
  (forall k, k < batches (IGCFile.fixes (igc w)) ->
     length (contribution (reply_in server w k))
     = length (batch (IGCFile.fixes (igc w)) k)) ->
  length (gathered server w) = length (IGCFile.fixes (igc w)).
Proof.
  intros Hlen. unfold gathered.
  fold (offset (fun k => contribution (reply_in server w k))
               (batches (IGCFile.fixes (igc w)))).
  rewrite (offset_ext _ (batch (IGCFile.fixes (igc w)))) by done.
  apply offset_batches.
Qed.

Lemma gathered_lookup server w i :
  (forall k, k < batches (IGCFile.fixes (igc w)) ->
     length (contribution (reply_in server w k))
     = length (batch (IGCFile.fixes (igc w)) k)) ->
  i < length (IGCFile.fixes (igc w)) ->
  gathered server w !! i = contribution (reply_in server w (i / 100)) !! (i mod 100).
Proof.
  intros Hlen Hi.
  assert (i / 100 < batches (IGCFile.fixes (igc w))) as Hk by (apply batches_lt; lia).
  unfold gathered.
  replace i with (offset (fun k => contribution (reply_in server w k)) (i / 100) + i mod 100)
    at 1.
  2: { rewrite (offset_ext _ (batch (IGCFile.fixes (igc w)))) by (intros; apply Hlen; lia).
       rewrite offset_batch by done. lia. }
  rewrite lookup_concat_block; [done|done|].
  rewrite Hlen, length_batch by done. lia.
Qed.

(** C2, as amended: the lookup of a track of [N] fixes, when no batch is
    refused, sends [ceil (N / 100)] requests, one per consecutive batch
    of at most 100 fixes; when every response reports success and lists
    one elevation per coordinate of its batch, the elevations returned
    are [N] and the one at position [i] is the one answered for fix
    [i]. *)
Theorem C2_batched_lookup server w :
  none_refused Number_toString service server w ->
  exists elevations w',
    getGroundElevations' server w = Return elevations w' /\
    requests w' = requests w
      ++ map (fun k => request_url Number_toString server (batch (IGCFile.fixes (igc w)) k))
             (seq 0 (ceil_div (length (IGCFile.fixes (igc w))) 100)) /\
    concat (map (batch (IGCFile.fixes (igc w)))
                (seq 0 (ceil_div (length (IGCFile.fixes (igc w))) 100)))
      = IGCFile.fixes (igc w) /\
    (forall k, k < ceil_div (length (IGCFile.fixes (igc w))) 100 ->
       0 < length (batch (IGCFile.fixes (igc w)) k) <= 100 /\
       (S k < ceil_div (length (IGCFile.fixes (igc w))) 100 ->
        length (batch (IGCFile.fixes (igc w)) k) = 100)) /\
    ((forall k, k < batches (IGCFile.fixes (igc w)) ->
        reports_success (reply_in server w k) = true /\
        length (answer (reply_in server w k))
        = length (batch (IGCFile.fixes (igc w)) k)) ->
     length elevations = length (IGCFile.fixes (igc w)) /\
     forall i, i < length (IGCFile.fixes (igc w)) ->
       elevations !! i = answer (reply_in server w (i / 100)) !! (i mod 100) /\
       batch (IGCFile.fixes (igc w)) (i / 100) !! (i mod 100)
       = IGCFile.fixes (igc w) !! i).
Proof.
  intros Hok.
  eexists _, _. split; [by apply getGroundElevations_ok|].
  cbn [requests sent]. split; [done|]. split; [apply concat_batches|].
  fold (batches (IGCFile.fixes (igc w))). split.
  { intros k Hk. apply batches_lt in Hk as Hlt. rewrite length_batch.
    split; [lia|]. intros HS. apply batches_lt in HS. lia. }
  intros H.
  assert (forall k, k < batches (IGCFile.fixes (igc w)) ->
            contribution (reply_in server w k) = answer (reply_in server w k)) as Hs.
  { intros k Hk. destruct (H k Hk) as [Hs _]. unfold reports_success in Hs.
    apply andb_true_iff in Hs as [_ Hs]. unfold contribution. by rewrite Hs. }
  assert (forall k, k < batches (IGCFile.fixes (igc w)) ->
            length (contribution (reply_in server w k))
            = length (batch (IGCFile.fixes (igc w)) k)) as Hlen.
  { intros k Hk. rewrite Hs by done. by apply H. }
  split; [by apply gathered_length|].
  intros i Hi. split; [|rewrite lookup_batch by lia; f_equal; lia].
  rewrite gathered_lookup by done.
  rewrite Hs by (apply batches_lt; lia). done.
Qed.

(** C5: a batch whose response has a successful HTTP status and a status
    field that does not start with OK does not make the lookup throw and
    adds no elevation; with the other batches answered as usual, the
    elevations returned are fewer than the fixes, and the elevation
    answered for a fix after that batch sits 100 positions before the
    fix. *)
Theorem C5_bad_status_batch server w b :
  b < batches (IGCFile.fixes (igc w)) ->
  none_refused Number_toString service server w ->
  status_OK (reply_in server w b) = false ->
  exists elevations w',
    getGroundElevations' server w = Return elevations w' /\
    contribution (reply_in server w b) = [] /\
    elevations
      = concat (map (fun k => if decide (k = b) then []
                              else contribution (reply_in server w k))
                    (seq 0 (batches (IGCFile.fixes (igc w))))) /\
    ((forall k, k < batches (IGCFile.fixes (igc w)) -> k <> b ->
        status_OK (reply_in server w k) = true /\
        length (answer (reply_in server w k))
        = length (batch (IGCFile.fixes (igc w)) k)) ->
     length elevations
       = length (IGCFile.fixes (igc w)) - length (batch (IGCFile.fixes (igc w)) b) /\
     length elevations < length (IGCFile.fixes (igc w)) /\
     forall i, 100 * S b <= i < length (IGCFile.fixes (igc w)) ->
       is_Some (elevations !! (i - 100)) /\
       elevations !! (i - 100) = answer (reply_in server w (i / 100)) !! (i mod 100)).
Proof.
  intros Hb Hok Hbad. set (fx := IGCFile.fixes (igc w)) in *.
  set (c := fun k => contribution (reply_in server w k)).
  assert (c b = []) as Hnil by (unfold c, contribution; by rewrite Hbad).
  eexists _, _. split; [by apply getGroundElevations_ok|].
  unfold gathered. fold fx. change (fun k => contribution (reply_in server w k)) with c.
  split; [done|]. split.
  { f_equal. apply map_ext_in. intros k _. by destruct (decide (k = b)) as [->|]. }
  intros Hothers.
  assert (length (c b) = 0) as Hempty by by rewrite Hnil.
  assert (forall k, k < batches fx -> k <> b -> c k = answer (reply_in server w k)) as Hc.
  { intros k Hk Hne. destruct (Hothers k Hk Hne) as [Hs _].
    unfold c, contribution. by rewrite Hs. }
  assert (forall k, k < batches fx -> k <> b -> length (c k) = length (batch fx k)) as Hlen.
  { intros k Hk Hne. rewrite Hc by done. by apply Hothers. }
  assert (0 < length (batch fx b)) as Hpos
    by (apply batches_lt in Hb; rewrite length_batch; lia).
  assert (offset c (batches fx) + length (batch fx b) = length fx) as Htotal.
  { rewrite (offset_skip c (batch fx)) by (done || intros; apply Hlen; lia).
    apply offset_batches. }
  fold (offset c (batches fx)). split; [lia|]. split; [lia|].
  intros i Hi.
  assert (i / 100 < batches fx) as Hk by (apply batches_lt; lia).
  assert (b < i / 100) as Hbk by lia.
  assert (length (batch fx b) = 100) as Hfull
    by (apply batches_lt in Hk; rewrite length_batch; lia).
  assert (offset c (i / 100) + 100 = 100 * (i / 100)) as Hoff.
  { pose proof (offset_skip c (batch fx) b (i / 100) Hbk Hempty) as Hskip.
    rewrite offset_batch in Hskip by done.
    rewrite <- Hskip by (intros; apply Hlen; lia). lia. }
  replace (i - 100) with (offset c (i / 100) + i mod 100) by lia.
  rewrite lookup_concat_block;
    [|done|rewrite Hlen, length_batch by (done || lia); lia].
  rewrite Hc by (done || lia). split; [|done].
  apply lookup_lt_is_Some. rewrite <- Hc, Hlen, length_batch by (done || lia). lia.
Qed.

(** C8, as amended: the request of each batch lists the batch's
    coordinates as pairs joined by a vertical bar, each pair being the
    latitude as [toFixed(5)] prints it, a comma followed by a space, and
    the longitude as [toFixed(5)] prints it; a coordinate that is a
    finite number of magnitude below [10^21] is printed rounded to 5
    decimal digits. *)
Theorem C8_request_encoding server w :
  (exists n w',
     n <= batches (IGCFile.fixes (igc w)) /\
     ((exists elevations, getGroundElevations' server w = Return elevations w') \/
      (exists e, getGroundElevations' server w = Throw e w')) /\
     requests w' = requests w
       ++ map (fun k =>
                 server +:+ "?locations="
                   +:+ String.concat "|"
                         (map (fun t =>
                                 JS.toFixed Number_toString 5 (Fix.latitude t) +:+ ", "
                                   +:+ JS.toFixed Number_toString 5 (Fix.longitude t))
                              (batch (IGCFile.fixes (igc w)) k)))
              (seq 0 n)) /\
  (forall t : Fix.t,
     (JS.in_fixed_range (Fix.latitude t) = true ->
      rounded_to 5 (Fix.latitude t) (JS.toFixed Number_toString 5 (Fix.latitude t))) /\
     (JS.in_fixed_range (Fix.longitude t) = true ->
      rounded_to 5 (Fix.longitude t) (JS.toFixed Number_toString 5 (Fix.longitude t)))).
Proof.
  split.
  - destruct (decide (Forall (fun k => Response.ok (reply_in server w k) = true)
                             (seq 0 (batches (IGCFile.fixes (igc w))))))
      as [Hall|Hex].
    + exists (batches (IGCFile.fixes (igc w))). eexists. split; [done|]. split.
      * left. eexists. apply getGroundElevations_ok. intros k Hk.
        rewrite Forall_forall in Hall. apply Hall, elem_of_seq. lia.
      * done.
    + apply not_Forall_Exists in Hex; [|intros k; apply _].
      apply Exists_exists in Hex as (k & Hk & Hno).
      apply elem_of_seq in Hk. apply not_true_is_false in Hno.
      destruct (first_refused _ _ _ _ _ Hno) as (b & Hle & Hbad & Hbefore).
      exists (S b). eexists. split; [lia|]. split.
      * right. eexists. apply (getGroundElevations_throw _ _ _ _ b); [lia|done|done].
      * done.
  - intros t. split; intros Hx; apply toFixed_rounded; (done || lia).
Qed.

End LookupClaims.

(** ** The version without scoring

    The lookup of the earlier version runs like the lookup of the later
    one on a track object that holds the same points. *)

Lemma slice_fmap {A B} (f : A -> B) (l : list A) b e :
  JS.slice (f <$> l) b e = f <$> JS.slice l b e.
Proof. unfold JS.slice. by rewrite fmap_take, fmap_drop. Qed.

Section ElevationOnlyRun.

Variable Number_toString : JS.number -> string.
Variable service : nat -> string -> Response.t.

Local Abbreviation reply_in := (reply_in Number_toString service).
Local Abbreviation none_refused := (none_refused Number_toString service).
Local Abbreviation gathered := (gathered Number_toString service).

Lemma request_url_to_fix server chunk :
  request_url Number_toString server (map ElevationOnly.to_fix chunk)
  = ElevationOnly.request_url Number_toString server chunk.
Proof.
  unfold request_url, ElevationOnly.request_url, locations, ElevationOnly.locations.
  by rewrite map_map.
Qed.

Lemma elevation_only_loop_simulation server trackPoints dataLength fuel :
  forall i result w,
    ElevationOnly.getGroundElevations_loop Number_toString service server trackPoints
      dataLength fuel i result w
    = ElevationOnly.with_igc (igc w)
        (getGroundElevations_loop Number_toString service server dataLength fuel i result
           (ElevationOnly.holding w trackPoints)).
Proof.
  induction fuel as [|fuel IH]; intros i result w.
  all: cbn [ElevationOnly.getGroundElevations_loop getGroundElevations_loop].
  all: destruct (i <? dataLength);
    [|unfold ret, ElevationOnly.holding; cbn; by rewrite world_eta].
  - done.
  - unfold bind at 1, fetch at 1.
    unfold bind at 1, get_fixes at 1. unfold bind at 1, fetch at 1.
    cbn [ElevationOnly.holding igc requests solves files IGCFile.fixes].
    change (map ElevationOnly.to_fix trackPoints) with (ElevationOnly.to_fix <$> trackPoints).
    rewrite slice_fmap. change (ElevationOnly.to_fix <$> ?l) with (map ElevationOnly.to_fix l).
    rewrite request_url_to_fix.
    destruct (Response.ok _); [|done].
    destruct (JS.startsWith _ _); by rewrite IH.
Qed.

Lemma elevation_only_lookup_simulation server trackPoints w :
  ElevationOnly.getGroundElevations Number_toString service server trackPoints w
  = ElevationOnly.with_igc (igc w)
      (getGroundElevations Number_toString service server
         (ElevationOnly.holding w trackPoints)).
Proof.
  unfold ElevationOnly.getGroundElevations, getGroundElevations, bind, get_fixes.
  cbn [ElevationOnly.holding igc IGCFile.fixes]. rewrite length_map.
  apply elevation_only_loop_simulation.
Qed.

(** The earlier lookup sends one request per batch of at most 100 points
    and, when each response reports success with one elevation per
    point, returns as many elevations as points, in the order of the
    points. *)
Lemma elevation_only_lookup server trackPoints w :
  (forall k, k < ceil_div (length trackPoints) 100 ->
     reports_success (reply_in server (ElevationOnly.holding w trackPoints) k) = true /\
     length (answer (reply_in server (ElevationOnly.holding w trackPoints) k))
     = length (JS.slice trackPoints (100 * k) (100 * k + 100))) ->
  exists elevations w',
    ElevationOnly.getGroundElevations Number_toString service server trackPoints w
      = Return elevations w' /\
    igc w' = igc w /\
    requests w' = requests w
      ++ map (fun k => ElevationOnly.request_url Number_toString server
                         (JS.slice trackPoints (100 * k) (100 * k + 100)))
             (seq 0 (ceil_div (length trackPoints) 100)) /\
    length elevations = length trackPoints /\
    forall i, i < length trackPoints ->
      elevations !! i
      = answer (reply_in server (ElevationOnly.holding w trackPoints) (i / 100))
          !! (i mod 100).
Proof.
  intros H. set (wh := ElevationOnly.holding w trackPoints) in *.
  assert (batches (IGCFile.fixes (igc wh)) = ceil_div (length trackPoints) 100) as Hnb
    by (unfold batches; cbn; by rewrite length_map).
  assert (forall k, batch (IGCFile.fixes (igc wh)) k
                    = map ElevationOnly.to_fix
                        (JS.slice trackPoints (100 * k) (100 * k + 100))) as Hbatch
    by (intros k; unfold batch; cbn; apply (slice_fmap ElevationOnly.to_fix)).
  assert (forall k, k < batches (IGCFile.fixes (igc wh)) ->
            Response.ok (reply_in server wh k) = true
            /\ contribution (reply_in server wh k) = answer (reply_in server wh k)) as Hs.
  { intros k Hk. rewrite Hnb in Hk. destruct (H k Hk) as [Hs _].
    unfold reports_success in Hs. apply andb_true_iff in Hs as [Hok Hs].
    unfold contribution. by rewrite Hs. }
  assert (forall k, k < batches (IGCFile.fixes (igc wh)) ->
            length (contribution (reply_in server wh k))
            = length (batch (IGCFile.fixes (igc wh)) k)) as Hlen.
  { intros k Hk. destruct (Hs k Hk) as [_ ->]. rewrite Hbatch, length_map.
    apply H. by rewrite <- Hnb. }
  rewrite elevation_only_lookup_simulation.
  rewrite getGroundElevations_ok by (intros k Hk; by apply Hs).
  eexists _, _. split; [done|]. cbn [igc requests sent ElevationOnly.holding].
  split; [done|]. split; [|split].
  - f_equal. fold wh. rewrite <- Hnb. unfold request_urls. apply map_ext. intros k.
    unfold batch_url. rewrite Hbatch. apply request_url_to_fix.
  - rewrite gathered_length by done. cbn. by rewrite length_map.
  - intros i Hi.
    assert (i < length (IGCFile.fixes (igc wh))) as Hi' by (cbn; by rewrite length_map).
    rewrite gathered_lookup by done.
    assert (i / 100 < batches (IGCFile.fixes (igc wh))) as Hk by (apply batches_lt; lia).
    destruct (Hs _ Hk) as [_ Hc]. fold wh. by rewrite Hc.
Qed.

(** The earlier [processData] returns one row per point, with the time
    of the point, whenever no batch is refused. *)
Lemma elevation_only_rows server trackPoints w :
  none_refused server (ElevationOnly.holding w trackPoints) ->
  exists out w',
    ElevationOnly.processData Number_toString service server trackPoints w
      = Return out w' /\
    length out = length trackPoints /\
    forall i, ElevationOnly.TargetData.time <$> out !! i
              = ElevationOnly.TrackPoint.time <$> trackPoints !! i.
Proof.
  intros Hok. unfold ElevationOnly.processData, bind.
  rewrite elevation_only_lookup_simulation, getGroundElevations_ok by done.
  cbn [ElevationOnly.with_igc]. unfold ret. eexists _, _. split; [done|].
  split; [apply length_imap|]. intros i. rewrite list_lookup_imap.
  by destruct (trackPoints !! i).
Qed.

End ElevationOnlyRun.

(** ** A refused batch aborts the run *)

Section Abort.

Variable Number_toString : JS.number -> string.
Variable service : nat -> string -> Response.t.
Variable solver : IGCFile.t -> nat -> Solution.t.

Local Abbreviation reply_in := (reply_in Number_toString service).

Lemma processData_throws sfuel server w e w' :
  getGroundElevations Number_toString service server w = Throw e w' ->
  processData Number_toString service solver sfuel server w = Throw e w'.
Proof. intros H. unfold processData, bind at 1. by rewrite H. Qed.

Lemma run_throws sfuel targetFile w e w' :
  processData Number_toString service solver sfuel ELEVATION_SERVER_URL w = Throw e w' ->
  run Number_toString service solver sfuel targetFile w = Throw e w'.
Proof. intros H. unfold run, bind at 1. by rewrite H. Qed.

(** C6: when the response to some batch has an HTTP status outside 200 to
    299, the lookup throws, [processData] and the run throw with it, and
    no file is written: the files are those from before the run. *)
Theorem C6_refused_batch_aborts sfuel targetFile w b :
  b < batches (IGCFile.fixes (igc w)) ->
  Response.ok (reply_in ELEVATION_SERVER_URL w b) = false ->
  exists b' w',
    b' <= b /\
    Response.ok (reply_in ELEVATION_SERVER_URL w b') = false /\
    getGroundElevations Number_toString service ELEVATION_SERVER_URL w
      = Throw (ServerReplies (Response.status (reply_in ELEVATION_SERVER_URL w b'))) w' /\
    processData Number_toString service solver sfuel ELEVATION_SERVER_URL w
      = Throw (ServerReplies (Response.status (reply_in ELEVATION_SERVER_URL w b'))) w' /\
    run Number_toString service solver sfuel targetFile w
      = Throw (ServerReplies (Response.status (reply_in ELEVATION_SERVER_URL w b'))) w' /\
    files w' = files w /\
    solves w' = solves w.
Proof.
  intros Hb Hbad.
  destruct (first_refused _ _ _ _ _ Hbad) as (b' & Hle & Hbad' & Hbefore).
  assert (getGroundElevations Number_toString service ELEVATION_SERVER_URL w
          = Throw (ServerReplies (Response.status (reply_in ELEVATION_SERVER_URL w b')))
                  (sent w (request_urls Number_toString ELEVATION_SERVER_URL w (S b'))))
    as Hthrow by (apply getGroundElevations_throw; [lia|done|done]).
  exists b'. eexists. split; [done|]. split; [done|]. split; [exact Hthrow|].
  split; [by apply processData_throws|].
  split; [by apply run_throws, processData_throws|]. done.
Qed.

End Abort.


(** ** The program on the scenarios *)

Lemma solver_third_converges track : converges solver_third track.
Proof. intros n. by exists 2. Qed.

Lemma service_ok_all_success server w :
  all_success toString_integers service_ok server w.
Proof. by intros k _. Qed.

Example toFixed_latitude :
  JS.toFixed toString_integers 5 (Fix.latitude fix_a) = "48.60333".
Proof. by vm_compute. Qed.

Example two_fixes_processed :
  exists w',
    processData toString_integers service_ok solver_third 5 "srv" two_fixes
    = Return [ TargetData.mk "10:00:00" (Some 1000%float) (Some 0%float) "FAI 8 km" 10%float;
               TargetData.mk "11:00:00" (Some 1200%float) (Some 1%float) "FAI 8 km" 10%float ]
             w' /\
    requests w' = ["srv?locations=48.60333, 11.50000|48.75000, -11.25000"] /\
    solves w' = [igc two_fixes] /\
    igc w' = igc two_fixes.
Proof. eexists. split; [by vm_compute|]. by vm_compute. Qed.

Example two_fixes_hang :
  processData toString_integers service_ok solver_third 2 "srv" two_fixes = Hang.
Proof. by vm_compute. Qed.

Example two_fixes_written :
  exists w',
    run toString_integers service_ok solver_third 5 "flight.csv" two_fixes = Return tt w' /\
    files w' !! "flight.csv"
    = Some (csv_header
              +:+ "2024-06-01T10:00:00Z,1000,0,1000,FAI 8 km,10.0" +:+ newline
              +:+ "2024-06-01T11:00:00Z,1200,1,1199,FAI 8 km,10.0" +:+ newline).
Proof. eexists. split; [by vm_compute|]. by vm_compute. Qed.

Lemma solver_third_first_optimal track : first_optimal (solver_third track) 2.
Proof.
  split; [done|]. intros m Hm. destruct m as [|[|m]]; [done|done|lia].
Qed.

(** *** The properties on the scenarios *)

(** C1 on the track of two fixes. *)
Lemma C1_witness :
  exists F, forall sfuel, F <= sfuel ->
    exists out w',
      processData toString_integers service_ok solver_third sfuel "srv" two_fixes
        = Return out w' /\
      length out = length (IGCFile.fixes (igc two_fixes)) /\
      forall i, TargetData.time <$> out !! i
                = Fix.time <$> IGCFile.fixes (igc two_fixes) !! i.
Proof.
  apply (C1_one_row_per_fix toString_integers service_ok solver_third "srv" two_fixes).
  - discriminate.
  - apply service_ok_all_success.
  - apply solver_third_converges.
Defined.

(** With a service that reports success and lists no elevation, the
    lookup of a track of one fix sends its one request and returns no
    elevation; with a service that refuses every request, the lookup of
    the track of 150 fixes stops after one request. *)
Lemma C2_counterexample :
  ((forall k, k < batches (IGCFile.fixes (igc one_fix)) ->
      reports_success (reply_in toString_integers service_no_results "srv" one_fix k) = true) /\
   exists elevations w',
     getGroundElevations toString_integers service_no_results "srv" one_fix
       = Return elevations w' /\
     length (requests w') = ceil_div (length (IGCFile.fixes (igc one_fix))) 100 /\
     length elevations <> length (IGCFile.fixes (igc one_fix))) /\
  (exists w',
     getGroundElevations toString_integers service_unavailable "srv" track_150
       = Throw (ServerReplies 503) w' /\
     length (requests w') <> ceil_div (length (IGCFile.fixes (igc track_150))) 100).
Proof.
  split.
  - split; [by intros k _|].
    exists [], (sent one_fix ["srv?locations=48.60333, 11.50000"]).
    split; [by vm_compute|]. split; [by vm_compute|]. discriminate.
  - eexists. split; [by vm_compute|]. vm_compute. discriminate.
Qed.

(** C2, as amended, on the track of 150 fixes. *)
Lemma C2_witness :
  exists elevations w',
    getGroundElevations toString_integers service_ok "srv" track_150
      = Return elevations w' /\
    length (requests w') = 2 /\
    length elevations = length (IGCFile.fixes (igc track_150)) /\
    forall i, i < length (IGCFile.fixes (igc track_150)) ->
      elevations !! i
        = answer (reply_in toString_integers service_ok "srv" track_150 (i / 100))
            !! (i mod 100) /\
      batch (IGCFile.fixes (igc track_150)) (i / 100) !! (i mod 100)
        = IGCFile.fixes (igc track_150) !! i.
Proof.
  destruct (C2_batched_lookup toString_integers service_ok "srv" track_150)
    as (elevations & w' & Hrun & Hreq & _ & _ & Haligned).
  - by intros k _.
  - exists elevations, w'. split; [done|]. split; [by rewrite Hreq|].
    apply Haligned. intros k Hk. split; [done|].
    assert (k = 0 \/ k = 1) as [-> | ->] by (vm_compute in Hk; lia); by vm_compute.
Defined.

(** C3 on the track of 150 fixes. *)
Lemma C3_witness :
  exists F, forall sfuel, F <= sfuel ->
    exists out w' fix0,
      processData toString_integers service_ok solver_third sfuel "srv" track_150
        = Return out w' /\
      IGCFile.fixes (igc track_150) !! 0 = Some fix0 /\
      (forall k i,
         60 * k <= i < (60 * (k + 1)) `min` length (IGCFile.fixes (igc track_150)) ->
         exists row n lastFix,
           out !! i = Some row /\
           first_optimal (solver_third (solved_track (igc track_150) k)) n /\
           last (chunk (igc track_150) k) = Some lastFix /\
           TargetData.xc row
             = xc_label toString_integers (solver_third (solved_track (igc track_150) k) n) /\
           TargetData.avgSpeed row
             = avg_speed (solver_third (solved_track (igc track_150) k) n)
                         (Fix.timestamp lastFix) (Fix.timestamp fix0)) /\
      (forall k i i' row row',
         60 * k <= i < (60 * (k + 1)) `min` length (IGCFile.fixes (igc track_150)) ->
         60 * k <= i' < (60 * (k + 1)) `min` length (IGCFile.fixes (igc track_150)) ->
         out !! i = Some row -> out !! i' = Some row' ->
         TargetData.xc row = TargetData.xc row' /\
         TargetData.avgSpeed row = TargetData.avgSpeed row').
Proof.
  apply (C3_chunk_rows_share_score toString_integers service_ok solver_third "srv" track_150).
  - discriminate.
  - by intros k _.
  - apply solver_third_converges.
Defined.

(** On the track of two fixes, one hour apart, with a candidate of 10 km
    and a penalty of 2 km, the rows carry the speed 10 and not the speed
    8 of the net distance. *)
Lemma C4_counterexample :
  exists out w' row,
    processData toString_integers service_ok solver_third 5 "srv" two_fixes
      = Return out w' /\
    out !! 1 = Some row /\
    first_optimal (solver_third (solved_track (igc two_fixes) 0)) 2 /\
    last (chunk (igc two_fixes) 0) = Some fix_b /\
    TargetData.avgSpeed row = 10%float /\
    spec_average_speed (solver_third (solved_track (igc two_fixes) 0) 2)
                       (Fix.timestamp fix_b) (Fix.timestamp fix_a) = 8%float /\
    TargetData.avgSpeed row
      <> spec_average_speed (solver_third (solved_track (igc two_fixes) 0) 2)
                            (Fix.timestamp fix_b) (Fix.timestamp fix_a).
Proof.
  eexists _, _, _. split; [by vm_compute|]. split; [by vm_compute|].
  split; [apply solver_third_first_optimal|]. split; [by vm_compute|].
  split; [by vm_compute|]. split; [by vm_compute|].
  vm_compute. intros H.
  apply (f_equal (fun x => PrimFloat.eqb x 8%float)) in H.
  vm_compute in H. discriminate.
Qed.

(** C4, as amended, on the track of two fixes. *)
Lemma C4_witness :
  exists F, forall sfuel, F <= sfuel ->
    exists out w' fix0,
      processData toString_integers service_ok solver_third sfuel "srv" two_fixes
        = Return out w' /\
      IGCFile.fixes (igc two_fixes) !! 0 = Some fix0 /\
      forall k i,
        60 * k <= i < (60 * (k + 1)) `min` length (IGCFile.fixes (igc two_fixes)) ->
        exists row n lastFix,
          out !! i = Some row /\
          first_optimal (solver_third (solved_track (igc two_fixes) k)) n /\
          IGCFile.fixes (igc two_fixes)
            !! ((60 * (k + 1)) `min` length (IGCFile.fixes (igc two_fixes)) - 1)
            = Some lastFix /\
          TargetData.avgSpeed row =
            PrimFloat.div
              (ScoreInfo.distance
                 (Solution.scoreInfo (solver_third (solved_track (igc two_fixes) k) n)))
              (PrimFloat.div
                 (PrimFloat.sub (Fix.timestamp lastFix) (Fix.timestamp fix0))
                 3600000%float).
Proof.
  apply (C4_average_speed_of_solved_distance
           toString_integers service_ok solver_third "srv" two_fixes).
  - discriminate.
  - by intros k _.
  - apply solver_third_converges.
Defined.

(** The first batch of the track of 150 fixes gets a bad status field:
    50 elevations come back, and position 0 holds the elevation that the
    service answered for fix 100. *)
Example bad_status_misaligned :
  exists elevations w',
    getGroundElevations toString_integers service_bad_status_first "srv" track_150
      = Return elevations w' /\
    length elevations = 50 /\
    elevations !! 0 = Some 1000%float /\
    answer (reply_in toString_integers service_bad_status_first "srv" track_150 1) !! 0
      = Some 1000%float.
Proof. eexists _, _. split; [by vm_compute|]. by vm_compute. Qed.

(** With that service the rows of the first 50 fixes carry the
    elevations answered for the fixes from 100 on, the rows from 50 on
    carry no elevation, and the run throws while it writes row 50, after
    the file has been opened. *)
Example bad_status_rows :
  exists out w',
    processData toString_integers service_bad_status_first solver_third 5 "srv" track_150
      = Return out w' /\
    TargetData.groundElev <$> out !! 0 = Some (Some 1000%float) /\
    TargetData.groundElev <$> out !! 49 = Some (Some 1049%float) /\
    TargetData.groundElev <$> out !! 50 = Some None.
Proof. eexists _, _. split; [by vm_compute|]. by vm_compute. Qed.

Example bad_status_run :
  exists w',
    run toString_integers service_bad_status_first solver_third 5 "flight.csv" track_150
      = Throw TypeError w' /\
    files w' !! "flight.csv" <> None.
Proof. eexists. split; [by vm_compute|]. vm_compute. discriminate. Qed.

(** C5 on the track of 150 fixes, with a bad status field for the first
    batch. *)
Lemma C5_witness :
  exists elevations w',
    getGroundElevations toString_integers service_bad_status_first "srv" track_150
      = Return elevations w' /\
    contribution (reply_in toString_integers service_bad_status_first "srv" track_150 0)
      = [] /\
    elevations
      = concat (map (fun k =>
                       if decide (k = 0) then []
                       else contribution
                              (reply_in toString_integers service_bad_status_first
                                        "srv" track_150 k))
                    (seq 0 (batches (IGCFile.fixes (igc track_150))))) /\
    length elevations
      = length (IGCFile.fixes (igc track_150))
        - length (batch (IGCFile.fixes (igc track_150)) 0) /\
    length elevations < length (IGCFile.fixes (igc track_150)) /\
    forall i, 100 * 1 <= i < length (IGCFile.fixes (igc track_150)) ->
      is_Some (elevations !! (i - 100)) /\
      elevations !! (i - 100)
        = answer (reply_in toString_integers service_bad_status_first "srv" track_150 (i / 100))
            !! (i mod 100).
Proof.
  destruct (C5_bad_status_batch toString_integers service_bad_status_first "srv" track_150 0)
    as (elevations & w' & Hrun & Hnil & Hcat & Hshift).
  - vm_compute. lia.
  - intros k _. by destruct k.
  - done.
  - exists elevations, w'. split; [done|]. split; [done|]. split; [done|].
    apply Hshift. intros k Hk Hne.
    assert (k = 1) as -> by (vm_compute in Hk; lia). by vm_compute.
Defined.

(** Scenario E: HTTP 500 on the second batch. *)
Example http_500_on_second_batch :
  exists w',
    run toString_integers service_500_second solver_third 5 "flight.csv" track_150
      = Throw (ServerReplies 500) w' /\
    length (requests w') = 2 /\ solves w' = [] /\ files w' = ∅.
Proof. eexists. split; [by vm_compute|]. by vm_compute. Qed.

(** C6 on the track of 150 fixes, with HTTP 500 for the second batch. *)
Lemma C6_witness :
  exists b' w',
    b' <= 1 /\
    Response.ok (reply_in toString_integers service_500_second ELEVATION_SERVER_URL
                          track_150 b') = false /\
    getGroundElevations toString_integers service_500_second ELEVATION_SERVER_URL track_150
      = Throw (ServerReplies
                 (Response.status
                    (reply_in toString_integers service_500_second ELEVATION_SERVER_URL
                              track_150 b'))) w' /\
    processData toString_integers service_500_second solver_third 5
                ELEVATION_SERVER_URL track_150
      = Throw (ServerReplies
                 (Response.status
                    (reply_in toString_integers service_500_second ELEVATION_SERVER_URL
                              track_150 b'))) w' /\
    run toString_integers service_500_second solver_third 5 "flight.csv" track_150
      = Throw (ServerReplies
                 (Response.status
                    (reply_in toString_integers service_500_second ELEVATION_SERVER_URL
                              track_150 b'))) w' /\
    files w' = files track_150 /\
    solves w' = solves track_150.
Proof.
  apply (C6_refused_batch_aborts toString_integers service_500_second solver_third
           5 "flight.csv" track_150 1).
  - vm_compute. lia.
  - done.
Defined.

(** C7 on the track without fixes. *)
Lemma C7_witness :
  exists w',
    processData toString_integers service_ok solver_third 0 "srv" (world_of [])
      = Return [] w' /\
    requests w' = requests (world_of []) /\ solves w' = solves (world_of []).
Proof.
  apply (C7_empty_track toString_integers service_ok solver_third 0 "srv" (world_of [])).
  done.
Defined.

(** The request for the track of two fixes has a space after each comma. *)
Lemma C8_counterexample :
  exists elevations w',
    getGroundElevations toString_integers service_ok "srv" two_fixes
      = Return elevations w' /\
    requests w' = ["srv?locations=48.60333, 11.50000|48.75000, -11.25000"] /\
    "srv?locations=" +:+ spec_locations toString_integers (IGCFile.fixes (igc two_fixes))
      = "srv?locations=48.60333,11.50000|48.75000,-11.25000" /\
    requests w'
      <> ["srv?locations="
            +:+ spec_locations toString_integers (IGCFile.fixes (igc two_fixes))].
Proof.
  eexists _, _. split; [by vm_compute|]. split; [done|]. split; [by vm_compute|].
  vm_compute. discriminate.
Qed.

(** A coordinate that is not a number is not rounded: the request shows
    it as the language prints it. *)
Example nan_coordinate_request :
  location toString_integers (Fix.mk "10:00:00" 0%float nan 11.5%float None)
  = "NaN, 11.50000".
Proof. by vm_compute. Qed.

(** C8, as amended, on the track of two fixes: the request, and the
    rounding of a latitude and of a negative longitude. *)
Lemma C8_witness :
  (exists n w',
     requests w'
     = map (fun k =>
              "srv?locations="
                +:+ String.concat "|"
                      (map (fun t =>
                              JS.toFixed toString_integers 5 (Fix.latitude t) +:+ ", "
                                +:+ JS.toFixed toString_integers 5 (Fix.longitude t))
                           (batch (IGCFile.fixes (igc two_fixes)) k)))
           (seq 0 n)) /\
  rounded_to 5 (Fix.latitude fix_a) "48.60333" /\
  rounded_to 5 (Fix.longitude fix_b) "-11.25000".
Proof.
  destruct (C8_request_encoding toString_integers service_ok "srv" two_fixes)
    as [(n & w' & _ & _ & Hreq) Hround].
  split; [by exists n, w'|]. split.
  - apply (Hround fix_a). by vm_compute.
  - apply (Hround fix_b). by vm_compute.
Defined.

(** The lookup of the track of 150 fixes sends two requests, not three. *)
Lemma C9_counterexample :
  exists out w',
    processData toString_integers service_ok solver_third 5 "srv" track_150
      = Return out w' /\
    length (IGCFile.fixes (igc track_150)) = 150 /\
    length (solves w') = 3 /\
    length (requests w') = 2 /\
    length (requests w') <> 3.
Proof.
  eexists _, _. split; [by vm_compute|]. by vm_compute.
Qed.

(** C9, as amended, on the track of 150 fixes. *)
Lemma C9_witness :
  exists F, forall sfuel, F <= sfuel ->
    exists out w',
      processData toString_integers service_ok solver_third sfuel "srv" track_150
        = Return out w' /\
      solves w' = solves track_150
                  ++ [prefix_track (igc track_150) 60;
                      prefix_track (igc track_150) 120;
                      prefix_track (igc track_150) 150] /\
      map (fun t => length (IGCFile.fixes t))
          [prefix_track (igc track_150) 60;
           prefix_track (igc track_150) 120;
           prefix_track (igc track_150) 150]
        = [60; 120; 150] /\
      requests w' = requests track_150
        ++ [request_url toString_integers "srv" (take 100 (IGCFile.fixes (igc track_150)));
            request_url toString_integers "srv" (drop 100 (IGCFile.fixes (igc track_150)))] /\
      length (take 100 (IGCFile.fixes (igc track_150))) = 100 /\
      length (drop 100 (IGCFile.fixes (igc track_150))) = 50.
Proof.
  apply (C9_track_of_150_fixes toString_integers service_ok solver_third "srv" track_150).
  - done.
  - by intros k _.
  - apply solver_third_converges.
Defined.

(** C10 on the track of 150 fixes. *)
Lemma C10_witness :
  exists out w',
    processData toString_integers service_ok solver_third 5 "srv" track_150
      = Return out w' /\
    IGCFile.fixes (igc w') = IGCFile.fixes (igc track_150).
Proof.
  destruct (C10_track_restored toString_integers service_ok solver_third "srv" track_150)
    as [Hrestored _].
  destruct (processData toString_integers service_ok solver_third 5 "srv" track_150)
    as [out w'| |] eqn:Hrun.
  - exists out, w'. split; [done|]. by apply (Hrestored 5 out).
  - vm_compute in Hrun. discriminate.
  - vm_compute in Hrun. discriminate.
Defined.


(** ** Further properties: the file written *)

Lemma wrote_lookup w filePath text : files (wrote w filePath text) !! filePath = Some text.
Proof. unfold wrote. cbn [files]. apply lookup_insert_eq. Qed.

Lemma wrote_lookup_ne w filePath text other :
  other <> filePath -> files (wrote w filePath text) !! other = files w !! other.
Proof. intros Hne. unfold wrote. cbn [files]. by apply lookup_insert_ne. Qed.

Lemma wrote_wrote w filePath text text' :
  wrote (wrote w filePath text) filePath text' = wrote w filePath text'.
Proof. unfold wrote. cbn [igc requests solves files]. by rewrite insert_insert_eq. Qed.

Lemma file_write_wrote w filePath cur text :
  file_write filePath text (wrote w filePath cur)
  = Return tt (wrote w filePath (cur +:+ text)).
Proof.
  unfold file_write. rewrite wrote_lookup. cbn [default].
  by rewrite <- (wrote_wrote w filePath cur (cur +:+ text)).
Qed.

Lemma string_app_nil_r s : s +:+ EmptyString = s.
Proof. induction s as [|c s IH]; [done|]. rewrite string_app_cons. by f_equal. Qed.

Section FileWritten.

Variable Number_toString : JS.number -> string.

Local Abbreviation csv_text := (csv_text Number_toString).

(** The rows are written up to the first one without elevation. *)
Lemma write_rows_defined filePath flightDate rows : forall w cur,
  Forall (fun row => is_Some (TargetData.groundElev row)) rows ->
  write_rows Number_toString filePath flightDate rows (wrote w filePath cur)
  = Return tt (wrote w filePath (cur +:+ csv_text flightDate rows)).
Proof.
  induction rows as [|row rows IH]; intros w cur Hall.
  - cbn [write_rows csv_text]. by rewrite string_app_nil_r.
  - apply Forall_cons in Hall as [[g Hg] Hall].
    cbn [write_rows csv_text]. unfold bind at 1, write_row, row_text.
    rewrite Hg. fold (csv_row Number_toString flightDate row g).
    rewrite file_write_wrote, IH by done. by rewrite string_app_assoc.
Qed.

Lemma write_rows_undefined filePath flightDate pre bad post : forall w cur,
  Forall (fun row => is_Some (TargetData.groundElev row)) pre ->
  TargetData.groundElev bad = None ->
  write_rows Number_toString filePath flightDate (pre ++ bad :: post) (wrote w filePath cur)
  = Throw TypeError (wrote w filePath (cur +:+ csv_text flightDate pre)).
Proof.
  induction pre as [|row pre IH]; intros w cur Hall Hbad.
  - cbn [app write_rows csv_text]. unfold bind at 1, write_row.
    rewrite Hbad. unfold throw. by rewrite string_app_nil_r.
  - apply Forall_cons in Hall as [[g Hg] Hall].
    cbn [app write_rows csv_text]. unfold bind at 1, write_row, row_text.
    rewrite Hg. fold (csv_row Number_toString flightDate row g).
    rewrite file_write_wrote, IH by done. by rewrite string_app_assoc.
Qed.

Lemma writeProcessedFile_defined filePath flightDate rows w :
  Forall (fun row => is_Some (TargetData.groundElev row)) rows ->
  writeProcessedFile Number_toString filePath flightDate rows w
  = Return tt (wrote w filePath (csv_header +:+ csv_text flightDate rows)).
Proof.
  intros Hall. unfold writeProcessedFile, bind at 1, fs_open_w.
  fold (wrote w filePath EmptyString). unfold bind at 1.
  rewrite file_write_wrote. by apply write_rows_defined.
Qed.

Lemma writeProcessedFile_undefined filePath flightDate pre bad post w :
  Forall (fun row => is_Some (TargetData.groundElev row)) pre ->
  TargetData.groundElev bad = None ->
  writeProcessedFile Number_toString filePath flightDate (pre ++ bad :: post) w
  = Throw TypeError (wrote w filePath (csv_header +:+ csv_text flightDate pre)).
Proof.
  intros Hall Hbad. unfold writeProcessedFile, bind at 1, fs_open_w.
  fold (wrote w filePath EmptyString). unfold bind at 1.
  rewrite file_write_wrote. by apply write_rows_undefined.
Qed.

(** X1: when every row has a ground elevation, [writeProcessedFile]
    returns, and the file then holds the header line followed by the
    texts of the rows in order, whatever it held before; no other file
    changes. *)
Theorem X1_file_holds_header_and_rows filePath flightDate rows w :
  Forall (fun row => is_Some (TargetData.groundElev row)) rows ->
  exists w',
    writeProcessedFile Number_toString filePath flightDate rows w = Return tt w' /\
    files w' !! filePath = Some (csv_header +:+ csv_text flightDate rows) /\
    (forall other, other <> filePath -> files w' !! other = files w !! other) /\
    igc w' = igc w /\ requests w' = requests w /\ solves w' = solves w.
Proof.
  intros Hall. eexists. split; [by apply writeProcessedFile_defined|].
  split; [apply wrote_lookup|]. split; [|done].
  intros other Hne. by apply wrote_lookup_ne.
Qed.

(** X2: when row [j] is the first row without ground elevation,
    [writeProcessedFile] throws a [TypeError] after it has opened the
    file, and leaves in it the header line and the first [j] rows. *)
Theorem X2_partial_file_on_missing_elevation filePath flightDate rows j bad w :
  rows !! j = Some bad ->
  TargetData.groundElev bad = None ->
  (forall i row, i < j -> rows !! i = Some row -> is_Some (TargetData.groundElev row)) ->
  exists w',
    writeProcessedFile Number_toString filePath flightDate rows w = Throw TypeError w' /\
    files w' !! filePath = Some (csv_header +:+ csv_text flightDate (take j rows)) /\
    (forall other, other <> filePath -> files w' !! other = files w !! other).
Proof.
  intros Hj Hbad Hbefore.
  pose proof (writeProcessedFile_undefined filePath flightDate
                (take j rows) bad (drop (S j) rows) w) as Hthrow.
  rewrite take_drop_middle in Hthrow by done.
  eexists. split.
  - apply Hthrow; [|done].
    apply Forall_lookup. intros i row Hi.
    apply lookup_take_Some in Hi as [Hi Hlt]. by eapply Hbefore.
  - split; [apply wrote_lookup|]. intros other Hne. by apply wrote_lookup_ne.
Qed.

End FileWritten.

(** ** Further properties: the run *)

Section RunProperties.

Variable Number_toString : JS.number -> string.
Variable service : nat -> string -> Response.t.
Variable solver : IGCFile.t -> nat -> Solution.t.

Local Abbreviation reply_in := (reply_in Number_toString service).
Local Abbreviation request_urls := (request_urls Number_toString).
Local Abbreviation gathered := (gathered Number_toString service).
Local Abbreviation none_refused := (none_refused Number_toString service).
Local Abbreviation csv_text := (csv_text Number_toString).

(** The rows of a run of [processData] that returns, field by field. *)
Lemma processData_rows server w :
  IGCFile.fixes (igc w) <> [] ->
  none_refused server w ->
  converges solver (igc w) ->
  exists F, forall sfuel, F <= sfuel ->
    exists out,
      processData Number_toString service solver sfuel server w =
        Return out
          (mkWorld (igc w)
             (requests w ++ request_urls server w (batches (IGCFile.fixes (igc w))))
             (solves w ++ map (solved_track (igc w)) (seq 0 (chunks (igc w))))
             (files w)) /\
      length out = length (IGCFile.fixes (igc w)) /\
      forall i row, out !! i = Some row ->
        exists fix_,
          IGCFile.fixes (igc w) !! i = Some fix_ /\
          TargetData.time row = Fix.time fix_ /\
          TargetData.gpsAlt row = Fix.gpsAltitude fix_ /\
          TargetData.groundElev row = gathered server w !! i.
Proof.
  intros Hne Hok Hconv.
  destruct (processData_total _ _ _ server w Hne Hok Hconv) as [F HF].
  exists F. intros sfuel Hle.
  destruct (HF sfuel Hle) as (out & fix0 & Hrun & _ & Hlen & Hrows).
  exists out. split; [done|]. split; [done|]. intros i row Hi.
  assert (i < length (IGCFile.fixes (igc w))) as Hlt
    by (rewrite <- Hlen; by eapply lookup_lt_Some).
  destruct (Hrows i Hlt) as (row' & Hrow' & fix_ & lastFix & n & Hfix & _ & _ & Heq).
  rewrite Hi in Hrow'. injection Hrow' as ->. subst row'. by exists fix_.
Qed.

(** X3: each row that [processData] returns carries the time and the GPS
    altitude of its fix and the elevation at the same position of the
    lookup's result; when every response reports success with one
    elevation per coordinate, that is the elevation answered for the
    fix. *)
Theorem X3_rows_carry_altitude_and_elevation server w :
  IGCFile.fixes (igc w) <> [] ->
  none_refused server w ->
  converges solver (igc w) ->
  exists F, forall sfuel, F <= sfuel ->
    exists out w',
      processData Number_toString service solver sfuel server w = Return out w' /\
      (forall i row, out !! i = Some row ->
         exists fix_,
           IGCFile.fixes (igc w) !! i = Some fix_ /\
           TargetData.time row = Fix.time fix_ /\
           TargetData.gpsAlt row = Fix.gpsAltitude fix_ /\
           TargetData.groundElev row = gathered server w !! i) /\
      ((forall k, k < batches (IGCFile.fixes (igc w)) ->
          status_OK (reply_in server w k) = true /\
          length (answer (reply_in server w k))
          = length (batch (IGCFile.fixes (igc w)) k)) ->
       forall i row, out !! i = Some row ->
         is_Some (TargetData.groundElev row) /\
         TargetData.groundElev row
         = answer (reply_in server w (i / 100)) !! (i mod 100)).
Proof.
  intros Hne Hok Hconv.
  destruct (processData_rows server w Hne Hok Hconv) as [F HF].
  exists F. intros sfuel Hle. destruct (HF sfuel Hle) as (out & Hrun & Hlen & Hrows).
  eexists out, _. split; [exact Hrun|]. split; [done|].
  intros Hsized i row Hi.
  assert (i < length (IGCFile.fixes (igc w))) as Hlt
    by (rewrite <- Hlen; by eapply lookup_lt_Some).
  assert (forall k, k < batches (IGCFile.fixes (igc w)) ->
            contribution (reply_in server w k) = answer (reply_in server w k)) as Hc.
  { intros k Hk. destruct (Hsized k Hk) as [Hs _]. unfold contribution. by rewrite Hs. }
  assert (forall k, k < batches (IGCFile.fixes (igc w)) ->
            length (contribution (reply_in server w k))
            = length (batch (IGCFile.fixes (igc w)) k)) as Hl.
  { intros k Hk. rewrite Hc by done. by apply Hsized. }
  destruct (Hrows i row Hi) as (fix_ & _ & _ & _ & ->).
  split.
  - apply lookup_lt_is_Some. by rewrite gathered_length.
  - rewrite gathered_lookup by done. rewrite Hc by (apply batches_lt; lia). done.
Qed.

Lemma run_unfold sfuel targetFile w out w1 :
  processData Number_toString service solver sfuel ELEVATION_SERVER_URL w = Return out w1 ->
  run Number_toString service solver sfuel targetFile w
  = writeProcessedFile Number_toString targetFile (IGCFile.date (igc w1)) out w1.
Proof. intros H. unfold run, bind at 1. rewrite H. done. Qed.

(** X4: when no batch is refused, the solver converges and the lookup
    gathers at least as many elevations as the track has fixes, the run
    returns; the target file then holds the header line and one row per
    fix, in the order of the fixes, and the track object is as it was
    read. *)
Theorem X4_run_writes_one_row_per_fix targetFile w :
  IGCFile.fixes (igc w) <> [] ->
  none_refused ELEVATION_SERVER_URL w ->
  converges solver (igc w) ->
  length (IGCFile.fixes (igc w)) <= length (gathered ELEVATION_SERVER_URL w) ->
  exists F, forall sfuel, F <= sfuel ->
    exists out w',
      run Number_toString service solver sfuel targetFile w = Return tt w' /\
      length out = length (IGCFile.fixes (igc w)) /\
      (forall i row, out !! i = Some row ->
         exists fix_,
           IGCFile.fixes (igc w) !! i = Some fix_ /\
           TargetData.time row = Fix.time fix_ /\
           TargetData.gpsAlt row = Fix.gpsAltitude fix_ /\
           TargetData.groundElev row = gathered ELEVATION_SERVER_URL w !! i) /\
      files w' !! targetFile
        = Some (csv_header +:+ csv_text (IGCFile.date (igc w)) out) /\
      (forall other, other <> targetFile -> files w' !! other = files w !! other) /\
      igc w' = igc w.
Proof.
  intros Hne Hok Hconv Hmany.
  destruct (processData_rows ELEVATION_SERVER_URL w Hne Hok Hconv) as [F HF].
  exists F. intros sfuel Hle. destruct (HF sfuel Hle) as (out & Hrun & Hlen & Hrows).
  assert (Forall (fun row => is_Some (TargetData.groundElev row)) out) as Hall.
  { apply Forall_lookup. intros i row Hi.
    destruct (Hrows i row Hi) as (fix_ & Hfix & _ & _ & ->).
    apply lookup_lt_is_Some. apply lookup_lt_Some in Hfix. lia. }
  eexists out, _. split.
  { rewrite (run_unfold _ _ _ _ _ Hrun). by apply writeProcessedFile_defined. }
  split; [done|]. split; [done|]. split; [apply wrote_lookup|]. split; [|done].
  intros other Hne'. by rewrite wrote_lookup_ne.
Qed.

(** X5: on a track without fixes the run sends no request, calls no
    solver and writes a file that holds the header line only. *)
Theorem X5_run_on_empty_track sfuel targetFile w :
  IGCFile.fixes (igc w) = [] ->
  run Number_toString service solver sfuel targetFile w
  = Return tt (wrote w targetFile csv_header).
Proof.
  intros Hnil.
  assert (processData Number_toString service solver sfuel ELEVATION_SERVER_URL w
          = Return [] w) as Hrun.
  { unfold processData, bind, getGroundElevations, bind, get_fixes.
    rewrite Hnil. cbn. by rewrite Hnil. }
  rewrite (run_unfold _ _ _ _ _ Hrun).
  rewrite writeProcessedFile_defined by done.
  change (csv_text (IGCFile.date (igc w)) []) with EmptyString.
  by rewrite string_app_nil_r.
Qed.

(** X6: when no batch is refused and the solver converges but the
    lookup gathers fewer elevations than the track has fixes, the run
    throws a [TypeError] while it writes the file, and leaves in it the
    header line and as many rows as elevations were gathered. *)
Theorem X6_run_fails_late_on_missing_elevations targetFile w :
  none_refused ELEVATION_SERVER_URL w ->
  converges solver (igc w) ->
  length (gathered ELEVATION_SERVER_URL w) < length (IGCFile.fixes (igc w)) ->
  exists F, forall sfuel, F <= sfuel ->
    exists out w1 w',
      processData Number_toString service solver sfuel ELEVATION_SERVER_URL w
        = Return out w1 /\
      length out = length (IGCFile.fixes (igc w)) /\
      run Number_toString service solver sfuel targetFile w = Throw TypeError w' /\
      files w' !! targetFile
        = Some (csv_header
                  +:+ csv_text (IGCFile.date (igc w))
                        (take (length (gathered ELEVATION_SERVER_URL w)) out)).
Proof.
  intros Hok Hconv Hfew.
  assert (IGCFile.fixes (igc w) <> []) as Hne
    by (intros E; rewrite E in Hfew; simpl in Hfew; lia).
  destruct (processData_rows ELEVATION_SERVER_URL w Hne Hok Hconv) as [F HF].
  exists F. intros sfuel Hle. destruct (HF sfuel Hle) as (out & Hrun & Hlen & Hrows).
  set (j := length (gathered ELEVATION_SERVER_URL w)) in *.
  destruct (lookup_lt_is_Some_2 out j ltac:(lia)) as [bad Hbad].
  assert (TargetData.groundElev bad = None) as Hnone.
  { destruct (Hrows j bad Hbad) as (fix_ & _ & _ & _ & ->).
    apply lookup_ge_None. unfold j. lia. }
  assert (Forall (fun row => is_Some (TargetData.groundElev row)) (take j out)) as Hall.
  { apply Forall_lookup. intros i row Hi.
    apply lookup_take_Some in Hi as [Hi Hlt].
    destruct (Hrows i row Hi) as (fix_ & _ & _ & _ & ->).
    apply lookup_lt_is_Some. unfold j in Hlt. lia. }
  eexists out, _, _. split; [exact Hrun|]. split; [done|]. split.
  - rewrite (run_unfold _ _ _ _ _ Hrun).
    rewrite <- (take_drop_middle out j bad Hbad) at 1.
    by apply writeProcessedFile_undefined.
  - apply wrote_lookup.
Qed.

End RunProperties.

(** ** Further properties: the scoring loop *)

(** A solver that never flags a candidate as optimal keeps the
    [do ... while] loop running, whatever the fuel. *)
Lemma drive_never_optimal Number_toString gen ck firstTimestamp :
  (forall m, is_optimal (gen m) = false) ->
  forall fuel n0 w, drive Number_toString gen ck firstTimestamp fuel n0 w = Hang.
Proof.
  intros Hnever. induction fuel as [|fuel IH]; intros n0 w; cbn [drive]; [done|].
  by rewrite Hnever.
Qed.

(** On a chunk with a last fix the loop never throws: it runs on, or it
    returns and leaves the world as it was. *)
Lemma drive_hangs_or_returns Number_toString gen ck firstTimestamp lastFix :
  last ck = Some lastFix ->
  forall fuel n0 w,
    drive Number_toString gen ck firstTimestamp fuel n0 w = Hang \/
    exists r, drive Number_toString gen ck firstTimestamp fuel n0 w = Return r w.
Proof.
  intros Hlast. induction fuel as [|fuel IH]; intros n0 w; cbn [drive]; [by left|].
  destruct (is_optimal (gen n0)); [|apply IH].
  rewrite Hlast. right. by eexists.
Qed.

Section ScoringHangs.

Variable Number_toString : JS.number -> string.
Variable solver : IGCFile.t -> nat -> Solution.t.

Variable track : IGCFile.t.
Variable firstTimestamp : JS.number.

Local Abbreviation fx := (IGCFile.fixes track).
Local Abbreviation loop := (processData_loop Number_toString solver).

Lemma scoring_loop_hangs sfuel elevations k :
  k < chunks track ->
  (forall m, is_optimal (solver (solved_track track k) m) = false) ->
  forall fuel r acc w,
    r <= k ->
    igc w = prefix_track track (60 * r) ->
    loop sfuel elevations fx firstTimestamp fuel (60 * r) acc w = Hang.
Proof.
  intros Hk Hnever. induction fuel as [|fuel IH]; intros r acc w Hr Higc.
  all: assert (60 * r < length fx) as Hlt by (apply chunks_lt; lia).
  all: pose proof Hlt as Hltb; apply Nat.ltb_lt in Hltb.
  all: cbn [processData_loop]; rewrite Hltb.
  { done. }
  change (JS.slice fx (60 * r) (60 * r + SCORING_CHUNK_SIZE)) with (chunk track r).
  replace (60 * r + SCORING_CHUNK_SIZE) with (60 * S r)
    by (unfold SCORING_CHUNK_SIZE; lia).
  assert (IGCFile.with_fixes (igc w) (IGCFile.fixes (igc w) ++ chunk track r)
          = solved_track track r) as Hnext.
  { rewrite Higc. unfold solved_track, prefix_track.
    cbn [IGCFile.fixes IGCFile.with_fixes IGCFile.date].
    by rewrite prefix_chunk. }
  unfold bind at 1, get_fixes at 1.
  unfold bind at 1, set_fixes at 1.
  unfold bind at 1, xcs_solver at 1. cbn [igc requests solves files].
  rewrite Hnext. unfold bind at 1.
  destruct (decide (r = k)) as [->|Hne].
  - by rewrite drive_never_optimal.
  - destruct (last_chunk_is_Some track r ltac:(lia)) as [lastFix Hlast].
    edestruct (drive_hangs_or_returns Number_toString (solver (solved_track track r))
                 (chunk track r) firstTimestamp lastFix Hlast sfuel 0) as [->|[[xc avgSpeed] ->]];
      [done|].
    apply IH; [lia|done].
Qed.

End ScoringHangs.

Section ScoringProperties.

Variable Number_toString : JS.number -> string.
Variable service : nat -> string -> Response.t.
Variable solver : IGCFile.t -> nat -> Solution.t.

Local Abbreviation none_refused := (none_refused Number_toString service).
Local Abbreviation request_urls := (request_urls Number_toString).

(** X7: when no batch is refused and, in some round, the solver never
    flags a candidate for the round's prefix as optimal, [processData]
    does not return, however many candidates it may pull. *)
Theorem X7_no_optimal_candidate_no_result server w k :
  none_refused server w ->
  k < chunks (igc w) ->
  (forall m, is_optimal (solver (solved_track (igc w) k) m) = false) ->
  forall sfuel,
    processData Number_toString service solver sfuel server w = Hang.
Proof.
  intros Hok Hk Hnever sfuel. unfold processData, bind at 1.
  rewrite getGroundElevations_ok by done.
  unfold bind at 1, get_fixes at 1. cbn [igc sent].
  destruct (IGCFile.fixes (igc w)) as [|fix0 tl] eqn:Efx.
  { unfold chunks, ceil_div in Hk. rewrite Efx in Hk. simpl in Hk. lia. }
  rewrite <- Efx. unfold bind at 1, set_fixes at 1. cbn [igc requests solves files].
  by apply (scoring_loop_hangs Number_toString solver (igc w) (Fix.timestamp fix0)
              sfuel _ k Hk Hnever _ 0); [lia|].
Qed.

(** X8: a run of [processData] that returns has called the solver once
    per chunk of 60 fixes and no more, each time on the track cut after
    that chunk: the first [min (60 * (k + 1)) N] fixes, under the date of
    the track. *)
Theorem X8_one_solver_call_per_chunk server w :
  IGCFile.fixes (igc w) <> [] ->
  none_refused server w ->
  converges solver (igc w) ->
  exists F, forall sfuel, F <= sfuel ->
    exists out w',
      processData Number_toString service solver sfuel server w = Return out w' /\
      length (solves w')
      = length (solves w) + ceil_div (length (IGCFile.fixes (igc w))) 60 /\
      forall k, k < ceil_div (length (IGCFile.fixes (igc w))) 60 ->
        exists handed,
          solves w' !! (length (solves w) + k) = Some handed /\
          IGCFile.date handed = IGCFile.date (igc w) /\
          IGCFile.fixes handed = take (60 * (k + 1)) (IGCFile.fixes (igc w)) /\
          length (IGCFile.fixes handed)
          = Nat.min (60 * (k + 1)) (length (IGCFile.fixes (igc w))).
Proof.
  intros Hne Hok Hconv.
  destruct (processData_total _ _ _ server w Hne Hok Hconv) as [F HF].
  exists F. intros sfuel Hle.
  destruct (HF sfuel Hle) as (out & fix0 & Hrun & _ & _ & _).
  eexists out, _. split; [exact Hrun|]. cbn [solves].
  fold (chunks (igc w)). split.
  - by rewrite length_app, length_map, length_seq.
  - intros k Hk. exists (solved_track (igc w) k).
    rewrite lookup_app_r, Nat.add_comm, Nat.add_sub by lia.
    rewrite list_lookup_fmap, lookup_seq_lt by done.
    replace (k + 1) with (S k) by lia.
    split; [done|].
    unfold solved_track, prefix_track, IGCFile.with_fixes.
    cbn [IGCFile.date IGCFile.fixes].
    split; [done|]. split; [done|]. by rewrite length_take.
Qed.

End ScoringProperties.

(** ** Further properties: the label and the lookup *)

Lemma digits_nonempty n : JS.digits n <> EmptyString.
Proof.
  unfold JS.digits. destruct (Z.to_N n) as [|p]; [done|].
  cbn [N.to_uint]. pose proof (Unsigned.to_uint_nonnil p) as H.
  by destruct (Pos.to_uint p).
Qed.

Lemma string_app_nonempty s1 s2 : s2 <> EmptyString -> s1 +:+ s2 <> EmptyString.
Proof. destruct s1; [done|]. by rewrite string_app_cons. Qed.

(** Without decimals asked for, the fixed notation is never empty. *)
Lemma toFixed_0_nonempty Number_toString x :
  JS.in_fixed_range x = true ->
  JS.toFixed Number_toString 0 x <> EmptyString.
Proof.
  intros Hx. unfold JS.in_fixed_range in Hx. unfold JS.toFixed.
  destruct (Prim2SF x) as [sgn|sgn| |sgn m e]; [|done|done|].
  - apply digits_nonempty.
  - apply negb_true_iff in Hx. rewrite Hx.
    apply string_app_nonempty, digits_nonempty.
Qed.

Section LabelAndLookup.

Variable Number_toString : JS.number -> string.
Variable service : nat -> string -> Response.t.

Local Abbreviation reply_in := (reply_in Number_toString service).
Local Abbreviation request_urls := (request_urls Number_toString).

(** X9: for a net distance that [toFixed] prints in fixed notation, the
    label of a candidate is the distance without decimals followed by
    the unit, preceded by FAI for the scoring code fai, by flat for the
    code tri, and by nothing for any other code. *)
Theorem X9_label_names_route_and_distance next :
  JS.in_fixed_range (net_distance (Solution.scoreInfo next)) = true ->
  JS.toFixed Number_toString 0 (net_distance (Solution.scoreInfo next)) <> EmptyString /\
  (Solution.scoring_code next = "fai" ->
   xc_label Number_toString next
   = "FAI " +:+ JS.toFixed Number_toString 0 (net_distance (Solution.scoreInfo next))
       +:+ " km") /\
  (Solution.scoring_code next = "tri" ->
   xc_label Number_toString next
   = "flat " +:+ JS.toFixed Number_toString 0 (net_distance (Solution.scoreInfo next))
       +:+ " km") /\
  (Solution.scoring_code next <> "fai" -> Solution.scoring_code next <> "tri" ->
   xc_label Number_toString next
   = JS.toFixed Number_toString 0 (net_distance (Solution.scoreInfo next)) +:+ " km").
Proof.
  intros Hx. pose proof (toFixed_0_nonempty Number_toString _ Hx) as Hd.
  split; [done|]. rewrite (xc_label_cases _ _ Hd). unfold getRouteType.
  split; [|split].
  - by intros ->.
  - by intros ->.
  - intros Hfai Htri. apply String.eqb_neq in Hfai, Htri. by rewrite Hfai, Htri.
Qed.

(** X10: when batch [b] is the first one refused, the lookup throws
    with the HTTP status of that batch after exactly [b + 1] requests,
    those of the batches up to [b] in their order; the later batches are
    never requested, and the track, the solver and the files are left
    alone. *)
Theorem X10_lookup_stops_at_first_refused server w b :
  b < batches (IGCFile.fixes (igc w)) ->
  (forall k, k < b -> Response.ok (reply_in server w k) = true) ->
  Response.ok (reply_in server w b) = false ->
  exists w',
    getGroundElevations Number_toString service server w
      = Throw (ServerReplies (Response.status (reply_in server w b))) w' /\
    requests w' = requests w
      ++ map (fun k => request_url Number_toString server (batch (IGCFile.fixes (igc w)) k))
             (seq 0 (b + 1)) /\
    length (requests w') = length (requests w) + b + 1 /\
    igc w' = igc w /\ solves w' = solves w /\ files w' = files w.
Proof.
  intros Hb Hok Hbad. eexists. split; [by apply getGroundElevations_throw|].
  cbn [requests sent igc solves files]. replace (b + 1) with (S b) by lia.
  split; [done|]. split; [|done].
  unfold request_urls. rewrite length_app, length_map, length_seq. lia.
Qed.


(** X12: for coordinates that [toFixed] prints in fixed notation, each
    pair of a request shows the latitude and the longitude with exactly
    5 digits after the point, and a request lists one pair per fix of
    its batch. *)
Theorem X12_pairs_show_five_decimals (chunk : list Fix.t) :
  Forall (fun t => JS.in_fixed_range (Fix.latitude t) = true /\
                   JS.in_fixed_range (Fix.longitude t) = true) chunk ->
  length (map (location Number_toString) chunk) = length chunk /\
  forall i pair, map (location Number_toString) chunk !! i = Some pair ->
    exists a1 b1 a2 b2,
      pair = (a1 +:+ "." +:+ b1) +:+ ", " +:+ (a2 +:+ "." +:+ b2) /\
      String.length b1 = 5 /\ String.length b2 = 5.
Proof.
  intros Hall. split; [apply length_map|]. intros i pair Hi.
  change (map (location Number_toString) chunk) with (location Number_toString <$> chunk) in Hi.
  rewrite list_lookup_fmap in Hi.
  destruct (chunk !! i) as [t|] eqn:Ht; [|done]. injection Hi as <-.
  rewrite Forall_lookup in Hall. destruct (Hall i t Ht) as [Hlat Hlon].
  by apply location_decimals.
Qed.

End LabelAndLookup.

(** ** Further properties: the line parser of the earlier version *)

Lemma startsWith_HFDTE_not_B line :
  JS.startsWith line "HFDTE" = true -> JS.startsWith line "B" = false.
Proof.
  unfold JS.startsWith. destruct line as [|c line]; [done|].
  cbn [String.prefix]. destruct (Ascii.ascii_dec _ c) as [<-|]; [|done].
  intros _. by destruct (Ascii.ascii_dec _ _).
Qed.

Lemma substring_beyond s : forall n m,
  String.length s <= n -> String.substring n m s = EmptyString.
Proof.
  induction s as [|c s IH]; intros n m Hn.
  - by destruct n, m.
  - destruct n as [|n]; [simpl in Hn; lia|].
    cbn [String.substring]. apply IH. simpl in Hn. lia.
Qed.

Lemma substring_0_0 s : String.substring 0 0 s = EmptyString.
Proof. by destruct s. Qed.

Lemma get_beyond s : forall n, String.length s <= n -> String.get n s = None.
Proof.
  induction s as [|c s IH]; intros n Hn; [done|].
  destruct n as [|n]; [simpl in Hn; lia|].
  cbn [String.get]. apply IH. simpl in Hn. lia.
Qed.

(** The loop over the lines, from any state. *)
Lemma read_lines_spec lines : forall flightDate trackPoints,
  fold_left ElevationOnly.read_line lines (flightDate, trackPoints)
  = (match last (header_lines lines) with
     | Some line => ElevationOnly.header_date line
     | None => flightDate
     end,
     trackPoints ++ map ElevationOnly.fix_point (fix_lines lines)).
Proof.
  induction lines as [|line lines IH]; intros flightDate trackPoints.
  - cbn. by rewrite app_nil_r.
  - cbn [fold_left]. unfold ElevationOnly.read_line at 2, header_lines, fix_lines.
    rewrite !filter_cons.
    destruct (JS.startsWith line "HFDTE") eqn:Hh.
    + rewrite (startsWith_HFDTE_not_B _ Hh).
      rewrite (decide_True (P := Is_true true)) by done.
      rewrite (decide_False (P := Is_true false)) by (by intros []). rewrite IH.
      rewrite last_cons. fold (header_lines lines). by destruct (last (header_lines lines)).
    + rewrite (decide_False (P := Is_true false)) by (by intros []).
      destruct (JS.startsWith line "B") eqn:Hb.
      * rewrite (decide_True (P := Is_true true)) by done.
        rewrite IH. cbn [map]. by rewrite <- app_assoc.
      * by rewrite IH.
Qed.

(** X13: [readIgcFile] yields one track point per line that starts
    with B, in the order of the lines; the flight date is that of the
    last line that starts with HFDTE, and the empty string when there
    is none; every other line is ignored. *)
Theorem X13_one_point_per_B_line lines :
  ElevationOnly.IgcFile.trackPoints (ElevationOnly.readIgcFile lines)
    = map ElevationOnly.fix_point (fix_lines lines) /\
  length (ElevationOnly.IgcFile.trackPoints (ElevationOnly.readIgcFile lines))
    = length (fix_lines lines) /\
  ElevationOnly.IgcFile.flightDate (ElevationOnly.readIgcFile lines)
    = match last (header_lines lines) with
      | Some line => ElevationOnly.header_date line
      | None => EmptyString
      end.
Proof.
  unfold ElevationOnly.readIgcFile. rewrite read_lines_spec.
  cbn [ElevationOnly.IgcFile.trackPoints ElevationOnly.IgcFile.flightDate app].
  by rewrite length_map.
Qed.

(** X14: on a header line whose date starts at character 10, as after
    [HFDTEDATE:], the flight date is the year with 20 before it, the
    month and the day, with dashes between them. *)
Theorem X14_date_of_long_header heading d1 d2 m1 m2 y1 y2 rest :
  String.length heading = 10 ->
  ElevationOnly.header_date
    (heading +:+ String d1 (String d2 (String m1 (String m2 (String y1 (String y2 rest))))))
  = "20" +:+ String y1 (String y2 ("-" +:+ String m1 (String m2 ("-" +:+
             String d1 (String d2 EmptyString))))).
Proof.
  intros Hlen.
  do 10 (destruct heading as [|? heading]; [done|]).
  destruct heading; [|done]. clear Hlen.
  unfold ElevationOnly.header_date, JS.substring.
  destruct rest as [|r1 [|r2 [|r3 [|r4 [|r5 rest]]]]]; reflexivity.
Qed.

(** X15: on a header line of the short form, [HFDTE] and six digits,
    only the last character is read as the date: the flight date is 20,
    two dashes and that character. *)
Theorem X15_date_of_short_header heading c :
  String.length heading = 10 ->
  ElevationOnly.header_date (heading +:+ String c EmptyString)
  = "20--" +:+ String c EmptyString.
Proof.
  intros Hlen.
  do 10 (destruct heading as [|? heading]; [done|]).
  destruct heading; [|done]. reflexivity.
Qed.

(** X16: a line that starts with B and ends before its latitude is not
    skipped: it gives a point whose latitude, longitude and altitude are
    all [NaN]. *)
Theorem X16_short_line_gives_NaN_point line :
  String.length line <= 7 ->
  ElevationOnly.TrackPoint.latDeg (ElevationOnly.fix_point line) = nan /\
  ElevationOnly.TrackPoint.lonDeg (ElevationOnly.fix_point line) = nan /\
  ElevationOnly.TrackPoint.gpsAlt (ElevationOnly.fix_point line) = nan.
Proof.
  intros Hlen. unfold ElevationOnly.fix_point, JS.substring.
  cbn [ElevationOnly.TrackPoint.latDeg ElevationOnly.TrackPoint.lonDeg
       ElevationOnly.TrackPoint.gpsAlt].
  rewrite (substring_beyond line 7), (substring_beyond line 15),
    (substring_beyond line 25) by lia.
  rewrite (get_beyond line 14), (get_beyond line 23) by lia.
  cbn [ElevationOnly.is_char]. by vm_compute.
Qed.

(** X17: on a line with at least 7 characters the time of the point is
    made of the characters 1 to 6, in pairs with colons between them. *)
Theorem X17_time_of_point b h1 h2 m1 m2 s1 s2 rest :
  ElevationOnly.TrackPoint.time
    (ElevationOnly.fix_point
       (String b (String h1 (String h2 (String m1 (String m2 (String s1 (String s2 rest))))))))
  = String h1 (String h2 (":" +:+ String m1 (String m2 (":" +:+
       String s1 (String s2 EmptyString))))).
Proof.
  unfold ElevationOnly.fix_point. cbn [ElevationOnly.TrackPoint.time].
  unfold JS.substring. cbn [String.substring Nat.sub].
  by rewrite !substring_0_0.
Qed.

(** ** Further properties: the earlier version as a whole *)

Section ElevationOnlyOutput.

Variable Number_toString : JS.number -> string.
Variable service : nat -> string -> Response.t.

Local Abbreviation reply_in := (reply_in Number_toString service).
Local Abbreviation gathered := (gathered Number_toString service).
Local Abbreviation none_refused := (none_refused Number_toString service).

Lemma elevation_only_write_rows filePath flightDate rows : forall w cur,
  Forall (fun row => is_Some (ElevationOnly.TargetData.groundElev row)) rows ->
  ElevationOnly.write_rows Number_toString filePath flightDate rows (wrote w filePath cur)
  = Return tt (wrote w filePath (cur +:+ point_csv_text Number_toString flightDate rows)).
Proof.
  induction rows as [|row rows IH]; intros w cur Hall.
  - cbn [ElevationOnly.write_rows point_csv_text]. by rewrite string_app_nil_r.
  - apply Forall_cons in Hall as [[g Hg] Hall].
    cbn [ElevationOnly.write_rows point_csv_text].
    unfold bind at 1, ElevationOnly.write_row, point_row_text.
    rewrite Hg. rewrite file_write_wrote, IH by done. by rewrite string_app_assoc.
Qed.

Lemma elevation_only_writeProcessedFile filePath flightDate rows w :
  Forall (fun row => is_Some (ElevationOnly.TargetData.groundElev row)) rows ->
  ElevationOnly.writeProcessedFile Number_toString filePath flightDate rows w
  = Return tt (wrote w filePath (ElevationOnly.csv_header +:+ point_csv_text Number_toString flightDate rows)).
Proof.
  intros Hall. unfold ElevationOnly.writeProcessedFile, bind at 1, fs_open_w.
  fold (wrote w filePath EmptyString). unfold bind at 1.
  rewrite file_write_wrote. by apply elevation_only_write_rows.
Qed.

(** The rows of the earlier [processData], field by field. *)
Lemma elevation_only_processData server trackPoints w :
  none_refused server (ElevationOnly.holding w trackPoints) ->
  exists out w',
    ElevationOnly.processData Number_toString service server trackPoints w
      = Return out w' /\
    igc w' = igc w /\ solves w' = solves w /\ files w' = files w /\
    length out = length trackPoints /\
    forall i row, out !! i = Some row ->
      exists point,
        trackPoints !! i = Some point /\
        ElevationOnly.TargetData.time row = ElevationOnly.TrackPoint.time point /\
        ElevationOnly.TargetData.gpsAlt row = ElevationOnly.TrackPoint.gpsAlt point /\
        ElevationOnly.TargetData.groundElev row
        = gathered server (ElevationOnly.holding w trackPoints) !! i.
Proof.
  intros Hok. unfold ElevationOnly.processData, bind.
  rewrite elevation_only_lookup_simulation, getGroundElevations_ok by done.
  cbn [ElevationOnly.with_igc]. unfold ret. eexists _, _. split; [done|].
  cbn [igc solves files sent ElevationOnly.holding].
  split; [done|]. split; [done|]. split; [done|].
  split; [apply length_imap|]. intros i row Hi. rewrite list_lookup_imap in Hi.
  destruct (trackPoints !! i) as [point|]; [|done].
  injection Hi as <-. by exists point.
Qed.

(** X18: when no batch is refused, the earlier [processData] returns
    one row per track point, in their order, each with the time and the
    altitude of its point and the elevation at the same position of the
    lookup's result; it calls no solver and writes no file. *)
Theorem X18_earlier_rows_follow_points server trackPoints w :
  none_refused server (ElevationOnly.holding w trackPoints) ->
  exists out w',
    ElevationOnly.processData Number_toString service server trackPoints w
      = Return out w' /\
    solves w' = solves w /\ files w' = files w /\
    length out = length trackPoints /\
    forall i row, out !! i = Some row ->
      exists point,
        trackPoints !! i = Some point /\
        ElevationOnly.TargetData.time row = ElevationOnly.TrackPoint.time point /\
        ElevationOnly.TargetData.gpsAlt row = ElevationOnly.TrackPoint.gpsAlt point /\
        ElevationOnly.TargetData.groundElev row
        = gathered server (ElevationOnly.holding w trackPoints) !! i.
Proof.
  intros Hok.
  destruct (elevation_only_processData server trackPoints w Hok)
    as (out & w' & Hrun & _ & Hs & Hf & Hlen & Hrows).
  by exists out, w'.
Qed.

(** X19: when every row has a ground elevation, the earlier
    [writeProcessedFile] leaves in the file the header line of four
    columns and the rows in their order, whatever the file held before,
    and touches no other file. *)
Theorem X19_earlier_file_holds_header_and_rows filePath flightDate rows w :
  Forall (fun row => is_Some (ElevationOnly.TargetData.groundElev row)) rows ->
  exists w',
    ElevationOnly.writeProcessedFile Number_toString filePath flightDate rows w
      = Return tt w' /\
    files w' !! filePath
      = Some (ElevationOnly.csv_header +:+ point_csv_text Number_toString flightDate rows) /\
    forall other, other <> filePath -> files w' !! other = files w !! other.
Proof.
  intros Hall. eexists. split; [by apply elevation_only_writeProcessedFile|].
  split; [apply wrote_lookup|]. intros other Hne. by apply wrote_lookup_ne.
Qed.

(** X20: when no batch is refused and the lookup gathers at least as
    many elevations as the file has lines that start with B, the earlier
    run writes a file with the header line and the rows that
    [processData] returns for the points read: one row per such line,
    in their order, each with the time and altitude of its line and
    with a ground elevation, so that each is printed, under the date of
    the last header line. *)
Theorem X20_earlier_run_writes_one_row_per_B_line lines targetFile w :
  none_refused ELEVATION_SERVER_URL
    (ElevationOnly.holding w (map ElevationOnly.fix_point (fix_lines lines))) ->
  length (fix_lines lines)
    <= length (gathered ELEVATION_SERVER_URL
                 (ElevationOnly.holding w
                    (map ElevationOnly.fix_point (fix_lines lines)))) ->
  exists out w1 w',
    ElevationOnly.processData Number_toString service ELEVATION_SERVER_URL
      (ElevationOnly.IgcFile.trackPoints (ElevationOnly.readIgcFile lines)) w
      = Return out w1 /\
    ElevationOnly.run Number_toString service lines targetFile w = Return tt w' /\
    length out = length (fix_lines lines) /\
    (forall i row, out !! i = Some row ->
       exists line,
         fix_lines lines !! i = Some line /\
         ElevationOnly.TargetData.time row
         = ElevationOnly.TrackPoint.time (ElevationOnly.fix_point line) /\
         ElevationOnly.TargetData.gpsAlt row
         = ElevationOnly.TrackPoint.gpsAlt (ElevationOnly.fix_point line) /\
         is_Some (ElevationOnly.TargetData.groundElev row) /\
         ElevationOnly.TargetData.groundElev row
         = gathered ELEVATION_SERVER_URL
             (ElevationOnly.holding w
                (map ElevationOnly.fix_point (fix_lines lines))) !! i) /\
    files w' !! targetFile
      = Some (ElevationOnly.csv_header
                +:+ point_csv_text Number_toString
                      (match last (header_lines lines) with
                       | Some line => ElevationOnly.header_date line
                       | None => EmptyString
                       end) out) /\
    (forall other, other <> targetFile -> files w' !! other = files w !! other).
Proof.
  intros Hok Hmany. unfold ElevationOnly.run, ElevationOnly.readIgcFile.
  rewrite read_lines_spec.
  cbn [ElevationOnly.IgcFile.trackPoints ElevationOnly.IgcFile.flightDate app].
  set (points := map ElevationOnly.fix_point (fix_lines lines)) in *.
  destruct (elevation_only_processData ELEVATION_SERVER_URL points w Hok)
    as (out & w1 & Hrun & Hi & Hs & Hf & Hlen & Hrows).
  assert (length points = length (fix_lines lines)) as Hpoints by apply length_map.
  assert (forall i row, out !! i = Some row ->
            is_Some (ElevationOnly.TargetData.groundElev row)) as Hdefined.
  { intros i row Hrow.
    destruct (Hrows i row Hrow) as (point & Hpoint & _ & _ & ->).
    apply lookup_lt_is_Some. apply lookup_lt_Some in Hpoint. lia. }
  assert (Forall (fun row => is_Some (ElevationOnly.TargetData.groundElev row)) out) as Hall
    by (apply Forall_lookup; intros i row Hrow; by eapply Hdefined).
  exists out, w1. eexists. split; [exact Hrun|]. unfold bind at 1. rewrite Hrun.
  split; [by apply elevation_only_writeProcessedFile|].
  split; [lia|]. split; [|split].
  - intros i row Hrow.
    destruct (Hrows i row Hrow) as (point & Hpoint & Ht & Ha & Hg).
    unfold points in Hpoint.
    change (map ElevationOnly.fix_point (fix_lines lines))
      with (ElevationOnly.fix_point <$> fix_lines lines) in Hpoint.
    rewrite list_lookup_fmap in Hpoint.
    destruct (fix_lines lines !! i) as [line|]; [|done].
    injection Hpoint as <-. exists line.
    split; [done|]. split; [done|]. split; [done|]. split; [by eapply Hdefined|done].
  - apply wrote_lookup.
  - intros other Hne. rewrite wrote_lookup_ne by done. by rewrite Hf.
Qed.

(** X21: when the file has no line that starts with B, the earlier run
    sends no request and writes a file that holds the header line
    only. *)
Theorem X21_earlier_run_without_B_lines lines targetFile w :
  fix_lines lines = [] ->
  ElevationOnly.run Number_toString service lines targetFile w
  = Return tt (wrote w targetFile ElevationOnly.csv_header).
Proof.
  intros Hnone. unfold ElevationOnly.run, ElevationOnly.readIgcFile.
  rewrite read_lines_spec, Hnone.
  cbn [ElevationOnly.IgcFile.trackPoints ElevationOnly.IgcFile.flightDate app map].
  unfold bind at 1, ElevationOnly.processData, bind at 1.
  cbn [ElevationOnly.getGroundElevations ElevationOnly.getGroundElevations_loop
       length Nat.ltb Nat.leb ret imap].
  rewrite elevation_only_writeProcessedFile by done.
  cbn [point_csv_text]. by rewrite string_app_nil_r.
Qed.

(** X22: when the response to some batch of the earlier run has an HTTP
    status outside 200 to 299, the run throws with the status of the
    first such batch and writes no file. *)
Theorem X22_earlier_run_aborts_on_refusal lines targetFile w b :
  b < ceil_div (length (fix_lines lines)) 100 ->
  (forall k, k < b ->
     Response.ok
       (reply_in ELEVATION_SERVER_URL
          (ElevationOnly.holding w (map ElevationOnly.fix_point (fix_lines lines))) k)
     = true) ->
  Response.ok
    (reply_in ELEVATION_SERVER_URL
       (ElevationOnly.holding w (map ElevationOnly.fix_point (fix_lines lines))) b)
  = false ->
  exists w',
    ElevationOnly.run Number_toString service lines targetFile w
    = Throw (ServerReplies
               (Response.status
                  (reply_in ELEVATION_SERVER_URL
                     (ElevationOnly.holding w
                        (map ElevationOnly.fix_point (fix_lines lines))) b))) w' /\
    files w' = files w /\
    length (requests w') = length (requests w) + b + 1.
Proof.
  intros Hb Hok Hbad. unfold ElevationOnly.run, ElevationOnly.readIgcFile.
  rewrite read_lines_spec.
  cbn [ElevationOnly.IgcFile.trackPoints ElevationOnly.IgcFile.flightDate app].
  set (points := map ElevationOnly.fix_point (fix_lines lines)) in *.
  unfold bind at 1, ElevationOnly.processData, bind at 1.
  rewrite elevation_only_lookup_simulation.
  rewrite (getGroundElevations_throw _ _ _ _ b); [|
    by (unfold batches; cbn [igc IGCFile.fixes ElevationOnly.holding];
        unfold points; rewrite !length_map) | done | done].
  cbn [ElevationOnly.with_igc]. eexists. split; [done|].
  cbn [files requests sent ElevationOnly.holding]. split; [done|].
  unfold request_urls. rewrite length_app, length_map, length_seq. lia.
Qed.

End ElevationOnlyOutput.

(** ** Further properties: the version that only solves *)

Lemma solution_only_drive gen n :
  first_optimal gen n ->
  forall fuel n0 w, n0 <= n -> n - n0 < fuel ->
    SolutionOnly.drive gen fuel n0 w = Return (gen n) w.
Proof.
  intros [Hopt Hbefore]. induction fuel as [|fuel IH]; intros n0 w Hle Hfuel; [lia|].
  cbn [SolutionOnly.drive]. destruct (decide (n0 = n)) as [->|Hne].
  - by rewrite Hopt.
  - rewrite Hbefore by lia. apply IH; lia.
Qed.

Lemma solution_only_drive_never gen :
  (forall m, is_optimal (gen m) = false) ->
  forall fuel n0 w, SolutionOnly.drive gen fuel n0 w = Hang.
Proof.
  intros Hnever. induction fuel as [|fuel IH]; intros n0 w; cbn [SolutionOnly.drive]; [done|].
  by rewrite Hnever.
Qed.

Section SolutionOnlyProperties.

Variable solver : IGCFile.t -> nat -> Solution.t.
Variable geojson_text : Solution.t -> string.

(** X23: when the solver flags some candidate for the whole track as
    optimal, the version that only solves calls the solver once, on the
    whole track, and leaves in the target file the text of the first
    candidate flagged optimal and nothing else; it sends no request. *)
Theorem X23_solution_file_holds_first_optimal targetFile w m :
  is_optimal (solver (igc w) m) = true ->
  exists n,
    first_optimal (solver (igc w)) n /\
    forall sfuel, n < sfuel ->
      exists w',
        SolutionOnly.processData solver geojson_text sfuel targetFile w = Return tt w' /\
        files w' !! targetFile = Some (geojson_text (solver (igc w) n)) /\
        (forall other, other <> targetFile -> files w' !! other = files w !! other) /\
        solves w' = solves w ++ [igc w] /\
        requests w' = requests w /\ igc w' = igc w.
Proof.
  intros Hopt. destruct (first_optimal_exists _ _ Hopt) as (n & Hle & Hfirst).
  exists n. split; [done|]. intros sfuel Hfuel. eexists.
  unfold SolutionOnly.processData, bind at 1, xcs_solver.
  unfold bind at 1. rewrite (solution_only_drive _ n Hfirst) by lia.
  unfold SolutionOnly.fs_writeFile. split; [done|]. cbn [files solves requests igc].
  split; [apply lookup_insert_eq|]. split; [|done].
  intros other Hne. by apply lookup_insert_ne.
Qed.

(** X24: when the solver never flags a candidate for the whole track as
    optimal, the version that only solves does not return, however many
    candidates it may pull, and writes nothing. *)
Theorem X24_solution_needs_optimal_candidate targetFile w :
  (forall m, is_optimal (solver (igc w) m) = false) ->
  forall sfuel,
    SolutionOnly.processData solver geojson_text sfuel targetFile w = Hang.
Proof.
  intros Hnever sfuel.
  unfold SolutionOnly.processData, bind at 1, xcs_solver.
  unfold bind at 1. by rewrite solution_only_drive_never.
Qed.

End SolutionOnlyProperties.

(** ** The further properties on the scenarios *)

Example sample_lines_read :
  ElevationOnly.readIgcFile sample_lines
  = ElevationOnly.IgcFile.mk "2009-07-28"
      [ ElevationOnly.TrackPoint.mk "11:01:35"
          (PrimFloat.add 52 (PrimFloat.div 6343 60000))
          (PrimFloat.opp (PrimFloat.add 0 (PrimFloat.div 6198 60000))) 587%float;
        ElevationOnly.TrackPoint.mk "11:01:45"
          (PrimFloat.opp (PrimFloat.add 52 (PrimFloat.div 6259 60000)))
          (PrimFloat.add 0 (PrimFloat.div 6295 60000)) 590%float ].
Proof. by vm_compute. Qed.

Example sample_lines_written :
  exists w',
    ElevationOnly.run toString_integers service_ok sample_lines "flight.csv" (world_of [])
      = Return tt w' /\
    requests w'
      = [ELEVATION_SERVER_URL +:+ "?locations=52.10572, -0.10330|-52.10432, 0.10492"] /\
    files w' !! "flight.csv"
      = Some (ElevationOnly.csv_header
                +:+ "2009-07-28T11:01:35Z,587,0,587" +:+ newline
                +:+ "2009-07-28T11:01:45Z,590,1,589" +:+ newline).
Proof. eexists. split; [by vm_compute|]. by vm_compute. Qed.

Lemma X1_witness :
  exists w',
    writeProcessedFile toString_integers "flight.csv" "2024-06-01"
      [TargetData.mk "10:00:00" (Some 1000%float) (Some 300%float) "FAI 8 km" 10%float]
      two_fixes = Return tt w' /\
    files w' !! "flight.csv"
      = Some (csv_header +:+ "2024-06-01T10:00:00Z,1000,300,700,FAI 8 km,10.0" +:+ newline).
Proof.
  destruct (X1_file_holds_header_and_rows toString_integers "flight.csv" "2024-06-01"
              [TargetData.mk "10:00:00" (Some 1000%float) (Some 300%float)
                 "FAI 8 km" 10%float] two_fixes)
    as (w' & Hrun & Hfile & _).
  - repeat constructor. by eexists.
  - exists w'. split; [done|]. rewrite Hfile. by vm_compute.
Defined.

Lemma X2_witness :
  exists w',
    writeProcessedFile toString_integers "flight.csv" "2024-06-01"
      [ TargetData.mk "10:00:00" (Some 1000%float) (Some 300%float) "FAI 8 km" 10%float;
        TargetData.mk "10:00:01" (Some 1001%float) None "FAI 8 km" 10%float;
        TargetData.mk "10:00:02" (Some 1002%float) (Some 301%float) "FAI 8 km" 10%float ]
      two_fixes = Throw TypeError w' /\
    files w' !! "flight.csv"
      = Some (csv_header +:+ "2024-06-01T10:00:00Z,1000,300,700,FAI 8 km,10.0" +:+ newline).
Proof.
  destruct (X2_partial_file_on_missing_elevation toString_integers "flight.csv" "2024-06-01"
              [ TargetData.mk "10:00:00" (Some 1000%float) (Some 300%float)
                  "FAI 8 km" 10%float;
                TargetData.mk "10:00:01" (Some 1001%float) None "FAI 8 km" 10%float;
                TargetData.mk "10:00:02" (Some 1002%float) (Some 301%float)
                  "FAI 8 km" 10%float ]
              1 (TargetData.mk "10:00:01" (Some 1001%float) None "FAI 8 km" 10%float)
              two_fixes)
    as (w' & Hrun & Hfile & _).
  - reflexivity.
  - reflexivity.
  - intros i row Hi Hrow. destruct i as [|i]; [|lia].
    injection Hrow as <-. by eexists.
  - exists w'. split; [done|]. rewrite Hfile. by vm_compute.
Defined.

Lemma X3_witness :
  exists F, forall sfuel, F <= sfuel ->
    exists out w',
      processData toString_integers service_ok solver_third sfuel "srv" two_fixes
        = Return out w' /\
      forall i row, out !! i = Some row ->
        is_Some (TargetData.groundElev row) /\
        TargetData.groundElev row
        = answer (reply_in toString_integers service_ok "srv" two_fixes (i / 100))
            !! (i mod 100).
Proof.
  destruct (X3_rows_carry_altitude_and_elevation toString_integers service_ok solver_third
              "srv" two_fixes) as [F HF].
  - discriminate.
  - by intros k _.
  - apply solver_third_converges.
  - exists F. intros sfuel Hle. destruct (HF sfuel Hle) as (out & w' & Hrun & _ & Hrows).
    exists out, w'. split; [done|]. apply Hrows. intros k Hk.
    assert (k = 0) as -> by (vm_compute in Hk; lia). by vm_compute.
Defined.

Lemma X4_witness :
  exists F, forall sfuel, F <= sfuel ->
    exists w',
      run toString_integers service_ok solver_third sfuel "flight.csv" two_fixes
        = Return tt w' /\
      files w' !! "flight.csv" <> None /\
      igc w' = igc two_fixes.
Proof.
  destruct (X4_run_writes_one_row_per_fix toString_integers service_ok solver_third
              "flight.csv" two_fixes) as [F HF].
  - discriminate.
  - by intros k _.
  - apply solver_third_converges.
  - vm_compute. lia.
  - exists F. intros sfuel Hle.
    destruct (HF sfuel Hle) as (out & w' & Hrun & _ & _ & Hfile & _ & Higc).
    exists w'. split; [done|]. split; [|done]. by rewrite Hfile.
Defined.

Lemma X5_witness :
  run toString_integers service_ok solver_third 0 "flight.csv" (world_of [])
  = Return tt (wrote (world_of []) "flight.csv" csv_header).
Proof.
  apply (X5_run_on_empty_track toString_integers service_ok solver_third 0 "flight.csv"
           (world_of [])).
  reflexivity.
Defined.

Lemma X6_witness :
  exists F, forall sfuel, F <= sfuel ->
    exists w',
      run toString_integers service_bad_status_first solver_third sfuel "flight.csv"
          track_150 = Throw TypeError w' /\
      files w' !! "flight.csv" <> None.
Proof.
  destruct (X6_run_fails_late_on_missing_elevations toString_integers
              service_bad_status_first solver_third "flight.csv" track_150) as [F HF].
  - intros k _. by destruct k.
  - apply solver_third_converges.
  - vm_compute. lia.
  - exists F. intros sfuel Hle.
    destruct (HF sfuel Hle) as (out & w1 & w' & _ & _ & Hrun & Hfile).
    exists w'. split; [done|]. by rewrite Hfile.
Defined.

Lemma X7_witness :
  processData toString_integers service_ok solver_never 1000 "srv" two_fixes = Hang.
Proof.
  apply (X7_no_optimal_candidate_no_result toString_integers service_ok solver_never
           "srv" two_fixes 0).
  - by intros k _.
  - vm_compute. lia.
  - by intros m.
Defined.

Lemma X8_witness :
  exists F, forall sfuel, F <= sfuel ->
    exists out w',
      processData toString_integers service_ok solver_third sfuel "srv" track_150
        = Return out w' /\
      length (solves w') = 3.
Proof.
  destruct (X8_one_solver_call_per_chunk toString_integers service_ok solver_third
              "srv" track_150) as [F HF].
  - discriminate.
  - by intros k _.
  - apply solver_third_converges.
  - exists F. intros sfuel Hle. destruct (HF sfuel Hle) as (out & w' & Hrun & Hlen & _).
    exists out, w'. split; [done|]. rewrite Hlen. by vm_compute.
Defined.

Lemma X9_witness :
  xc_label toString_integers (solver_third (igc two_fixes) 2)
  = "FAI " +:+ JS.toFixed toString_integers 0
                 (net_distance (Solution.scoreInfo (solver_third (igc two_fixes) 2)))
      +:+ " km".
Proof.
  destruct (X9_label_names_route_and_distance toString_integers
              (solver_third (igc two_fixes) 2)) as (_ & Hfai & _).
  - by vm_compute.
  - by apply Hfai.
Defined.

Lemma X10_witness :
  exists w',
    getGroundElevations toString_integers service_500_second "srv" track_150
      = Throw (ServerReplies 500) w' /\
    length (requests w') = 2.
Proof.
  destruct (X10_lookup_stops_at_first_refused toString_integers service_500_second
              "srv" track_150 1) as (w' & Hrun & _ & Hlen & _).
  - vm_compute. lia.
  - intros k Hk. assert (k = 0) as -> by lia. done.
  - done.
  - exists w'. split; [done|]. rewrite Hlen. by vm_compute.
Defined.

Lemma X12_witness :
  exists a1 b1 a2 b2,
    location toString_integers fix_b
    = (a1 +:+ "." +:+ b1) +:+ ", " +:+ (a2 +:+ "." +:+ b2) /\
    String.length b1 = 5 /\ String.length b2 = 5.
Proof.
  destruct (X12_pairs_show_five_decimals toString_integers [fix_a; fix_b]) as [_ Hpairs].
  - repeat constructor; by vm_compute.
  - by apply (Hpairs 1).
Defined.

Lemma X14_witness : ElevationOnly.header_date "HFDTEDATE:280709,01" = "2009-07-28".
Proof.
  exact (X14_date_of_long_header "HFDTEDATE:"
           (Ascii.ascii_of_nat 50) (Ascii.ascii_of_nat 56)
           (Ascii.ascii_of_nat 48) (Ascii.ascii_of_nat 55)
           (Ascii.ascii_of_nat 48) (Ascii.ascii_of_nat 57) ",01" eq_refl).
Defined.

Lemma X15_witness : ElevationOnly.header_date "HFDTE280709" = "20--9".
Proof.
  exact (X15_date_of_short_header "HFDTE28070" (Ascii.ascii_of_nat 57) eq_refl).
Defined.

Lemma X16_witness :
  ElevationOnly.TrackPoint.latDeg (ElevationOnly.fix_point "B110135") = nan /\
  ElevationOnly.TrackPoint.lonDeg (ElevationOnly.fix_point "B110135") = nan /\
  ElevationOnly.TrackPoint.gpsAlt (ElevationOnly.fix_point "B110135") = nan.
Proof.
  apply (X16_short_line_gives_NaN_point "B110135"). vm_compute. lia.
Defined.

Lemma X18_witness :
  exists out w',
    ElevationOnly.processData toString_integers service_ok "srv"
      (ElevationOnly.IgcFile.trackPoints (ElevationOnly.readIgcFile sample_lines))
      (world_of []) = Return out w' /\
    length out = 2.
Proof.
  destruct (X18_earlier_rows_follow_points toString_integers service_ok "srv"
              (ElevationOnly.IgcFile.trackPoints (ElevationOnly.readIgcFile sample_lines))
              (world_of [])) as (out & w' & Hrun & _ & _ & Hlen & _).
  - by intros k _.
  - exists out, w'. split; [done|]. rewrite Hlen. by vm_compute.
Defined.

Lemma X19_witness :
  exists w',
    ElevationOnly.writeProcessedFile toString_integers "flight.csv" "2009-07-28"
      [ElevationOnly.TargetData.mk "11:01:35" 587%float (Some 12%float)] (world_of [])
      = Return tt w' /\
    files w' !! "flight.csv"
      = Some (ElevationOnly.csv_header +:+ "2009-07-28T11:01:35Z,587,12,575" +:+ newline).
Proof.
  destruct (X19_earlier_file_holds_header_and_rows toString_integers "flight.csv"
              "2009-07-28"
              [ElevationOnly.TargetData.mk "11:01:35" 587%float (Some 12%float)]
              (world_of [])) as (w' & Hrun & Hfile & _).
  - repeat constructor. by eexists.
  - exists w'. split; [done|]. rewrite Hfile. by vm_compute.
Defined.

Lemma X20_witness :
  exists out w',
    ElevationOnly.run toString_integers service_ok sample_lines "flight.csv" (world_of [])
      = Return tt w' /\
    length out = 2 /\
    Forall (fun row => is_Some (ElevationOnly.TargetData.groundElev row)) out /\
    files w' !! "flight.csv"
      = Some (ElevationOnly.csv_header
                +:+ point_csv_text toString_integers "2009-07-28" out).
Proof.
  destruct (X20_earlier_run_writes_one_row_per_B_line toString_integers service_ok
              sample_lines "flight.csv" (world_of []))
    as (out & w1 & w' & _ & Hrun & Hlen & Hrows & Hfile & _).
  - by intros k _.
  - vm_compute. lia.
  - exists out, w'. split; [done|]. split; [by rewrite Hlen|]. split; [|by rewrite Hfile].
    apply Forall_lookup. intros i row Hrow.
    by destruct (Hrows i row Hrow) as (line & _ & _ & _ & Hdefined & _).
Defined.

Lemma X21_witness :
  ElevationOnly.run toString_integers service_ok ["AXXXABC"; "HFDTEDATE:280709,01"]
    "flight.csv" (world_of [])
  = Return tt (wrote (world_of []) "flight.csv" ElevationOnly.csv_header).
Proof.
  apply (X21_earlier_run_without_B_lines toString_integers service_ok
           ["AXXXABC"; "HFDTEDATE:280709,01"] "flight.csv" (world_of [])).
  reflexivity.
Defined.

Lemma X22_witness :
  exists w',
    ElevationOnly.run toString_integers service_unavailable sample_lines "flight.csv"
      (world_of []) = Throw (ServerReplies 503) w' /\
    files w' = files (world_of []).
Proof.
  destruct (X22_earlier_run_aborts_on_refusal toString_integers service_unavailable
              sample_lines "flight.csv" (world_of []) 0) as (w' & Hrun & Hfiles & _).
  - vm_compute. lia.
  - intros k Hk. lia.
  - done.
  - by exists w'.
Defined.

Lemma X23_witness :
  exists n,
    first_optimal (solver_third (igc two_fixes)) n /\
    forall sfuel, n < sfuel ->
      exists w',
        SolutionOnly.processData solver_third scoring_code_text sfuel "flight.json"
          two_fixes = Return tt w' /\
        files w' !! "flight.json" = Some "fai".
Proof.
  destruct (X23_solution_file_holds_first_optimal solver_third scoring_code_text
              "flight.json" two_fixes 2) as (n & Hfirst & Hrun).
  - reflexivity.
  - exists n. split; [done|]. intros sfuel Hfuel.
    destruct (Hrun sfuel Hfuel) as (w' & Hret & Hfile & _).
    exists w'. split; [done|]. by rewrite Hfile.
Defined.

Lemma X24_witness :
  SolutionOnly.processData solver_never scoring_code_text 1000 "flight.json" two_fixes
  = Hang.
Proof.
  apply (X24_solution_needs_optimal_candidate solver_never scoring_code_text
           "flight.json" two_fixes).
  by intros m.
Defined.

(** ** Further properties: the speed over no time *)

Lemma SF64sub_diag x :
  SF64sub x x = S754_nan \/ exists s, SF64sub x x = S754_zero s.
Proof.
  destruct x as [s|s| |s m e]; unfold SF64sub, SFsub.
  - right. destruct s; by eexists.
  - left. by destruct s.
  - by left.
  - right. exists false. by rewrite Z.sub_diag.
Qed.

(** A distance over a stretch of time from a timestamp to itself is
    not a finite number: it is [NaN] or an infinity. *)
Lemma avg_speed_over_no_time next t :
  Prim2SF (avg_speed next t t) = S754_nan \/
  exists s, Prim2SF (avg_speed next t t) = S754_infinity s.
Proof.
  unfold avg_speed.
  rewrite !FloatAxioms.div_spec, FloatAxioms.sub_spec.
  destruct (SF64sub_diag (Prim2SF t)) as [->|[s ->]].
  - left. cbn. by destruct (Prim2SF _).
  - destruct (Prim2SF 3600000) as [s'|s'| |s' m e] eqn:E; vm_compute in E; try discriminate.
    cbn [SF64div SFdiv xorb].
    destruct (Prim2SF (ScoreInfo.distance (Solution.scoreInfo next))) as [sd|sd| |sd md ed].
    + by left.
    + right. by eexists.
    + by left.
    + right. by eexists.
Qed.

Section SpeedOverNoTime.

Variable Number_toString : JS.number -> string.
Variable service : nat -> string -> Response.t.
Variable solver : IGCFile.t -> nat -> Solution.t.

(** X25: when the last fix of a chunk has the timestamp of the first
    fix of the track, as on a track of one fix, and [processData]
    returns, the average speed of the rows of that chunk is a division
    by a zero duration, or by [NaN] when the timestamp is not finite: it
    is [NaN] or an infinity, never a finite number, so that [toFixed]
    does not print it in fixed notation. *)
Theorem X25_speed_over_no_time_not_finite server w fix0 k lastFix :
  IGCFile.fixes (igc w) !! 0 = Some fix0 ->
  last (chunk (igc w) k) = Some lastFix ->
  Fix.timestamp lastFix = Fix.timestamp fix0 ->
  none_refused Number_toString service server w ->
  converges solver (igc w) ->
  exists F, forall sfuel, F <= sfuel ->
    exists out w',
      processData Number_toString service solver sfuel server w = Return out w' /\
      length out = length (IGCFile.fixes (igc w)) /\
      forall i row, i / 60 = k -> out !! i = Some row ->
        (Prim2SF (TargetData.avgSpeed row) = S754_nan \/
         exists s, Prim2SF (TargetData.avgSpeed row) = S754_infinity s) /\
        JS.in_fixed_range (TargetData.avgSpeed row) = false.
Proof.
  intros Hfix0 Hlast Hsame Hok Hconv.
  assert (IGCFile.fixes (igc w) <> []) as Hne
    by (intros E; by rewrite E in Hfix0).
  destruct (processData_total _ _ _ server w Hne Hok Hconv) as [F HF].
  exists F. intros sfuel Hle.
  destruct (HF sfuel Hle) as (out & first & Hrun & Hfirst & Hlen & Hrows).
  exists out. eexists. split; [exact Hrun|]. split; [done|].
  intros i row Hk Hrow.
  assert (i < length (IGCFile.fixes (igc w))) as Hlt
    by (rewrite <- Hlen; by eapply lookup_lt_Some).
  destruct (Hrows i Hlt) as (row' & Hrow' & fix_ & lastFix' & n & _ & Hlast' & _ & Heq).
  rewrite Hrow in Hrow'. injection Hrow' as <-.
  rewrite Hk, Hlast in Hlast'. injection Hlast' as <-.
  rewrite Hfix0 in Hfirst. injection Hfirst as <-.
  subst row. cbn [TargetData.avgSpeed]. rewrite Hsame.
  pose proof (avg_speed_over_no_time (solver (solved_track (igc w) (i / 60)) n)
                (Fix.timestamp fix0)) as Hspeed.
  split; [exact Hspeed|]. unfold JS.in_fixed_range.
  by destruct Hspeed as [->|[s ->]].
Qed.

End SpeedOverNoTime.

Lemma X25_witness :
  exists F, forall sfuel, F <= sfuel ->
    exists row w',
      processData toString_integers service_ok solver_third sfuel "srv" one_fix
        = Return [row] w' /\
      (Prim2SF (TargetData.avgSpeed row) = S754_nan \/
       exists s, Prim2SF (TargetData.avgSpeed row) = S754_infinity s).
Proof.
  destruct (X25_speed_over_no_time_not_finite toString_integers service_ok solver_third
              "srv" one_fix fix_a 0 fix_a) as [F HF].
  - reflexivity.
  - reflexivity.
  - reflexivity.
  - by intros k _.
  - apply solver_third_converges.
  - exists F. intros sfuel Hle. destruct (HF sfuel Hle) as (out & w' & Hrun & Hlen & Hspeed).
    destruct out as [|row [|? ?]]; try done.
    exists row, w'. split; [done|]. by apply (Hspeed 0 row).
Defined.
